(** * pyMake: configuration resolution and command synthesis

    A shallow embedding of [pyMake.py]: the [Override] class, [lf_args],
    [checkCommand], [generateCommand] and the part of [main] that builds the
    list of TOML documents, with the properties of the specification stated
    over them.

    Conventions of the embedding.
    - A Python [str] is a [string]; one [ascii] stands for one character.
    - A TOML value is a string or an array of strings, the two shapes the
      command tables use; a table is a finite map from keys to values and a
      document a finite map from table names to tables.
    - Python's effects are explicit: a computation takes the lines printed so
      far and gives back an outcome (a returned value, [exit(code)] or an
      uncaught exception) with the lines printed by then. *)

From Stdlib Require Import String Ascii ZArith List Lia.
From stdpp Require Import gmap strings list fin_maps pretty.

(** ** TOML data *)

Inductive value :=
  | VStr (s : string)
  | VArr (l : list string).

Abbreviation table := (gmap string value).
Abbreviation document := (gmap string table).

(** ** Python strings *)

Module PyStr.

(** [needle in hay] on two strings. *)
Fixpoint str_in (needle hay : string) : bool :=
  String.prefix needle hay ||
  match hay with
  | EmptyString => false
  | String _ hay' => str_in needle hay'
  end.

(** [s[i:j]] for [0 <= i] and [0 <= j]: the slice is cut at the end of
    [s] and empty when [j <= i]. *)
Definition slice (i j : nat) (s : string) : string := substring i (j - i) s.

(** [s[i]] for [0 <= i]; [None] is Python's IndexError. *)
Definition item (i : nat) (s : string) : option ascii := String.get i s.

(** [c.isspace()] on the characters below 256. *)
Definition isspace (c : ascii) : bool :=
  let n := nat_of_ascii c in
  ((9 <=? n) && (n <=? 13)) || ((28 <=? n) && (n <=? 32))
  || (n =? 133) || (n =? 160).

Fixpoint lstrip (s : string) : string :=
  match s with
  | EmptyString => EmptyString
  | String c s' => if isspace c then lstrip s' else s
  end.

Fixpoint rstrip (s : string) : string :=
  match s with
  | EmptyString => EmptyString
  | String c s' =>
      match rstrip s' with
      | EmptyString => if isspace c then EmptyString else String c EmptyString
      | r => String c r
      end
  end.

(** [s.strip()]. *)
Definition strip (s : string) : string := rstrip (lstrip s).

(** [s.index(c)] for a one-character separator; [None] when absent. *)
Fixpoint index_of (c : ascii) (s : string) : option nat :=
  match s with
  | EmptyString => None
  | String a s' => if Ascii.eqb a c then Some 0 else S <$> index_of c s'
  end.

(** The characters of a string, as [for element in s] yields them. *)
Fixpoint chars (s : string) : list string :=
  match s with
  | EmptyString => []
  | String c s' => String c EmptyString :: chars s'
  end.

End PyStr.

(** ** Outcomes and printed lines *)

Inductive exn :=
  | KeyError (key : string)
  | IndexError
  | TypeError
  | OSError (msg : string)
  | TOMLDecodeError (msg : string).

Inductive outcome (A : Type) :=
  | Ret (a : A)
  | Exit (code : Z)
  | Raise (e : exn).
Arguments Ret {A} a.
Arguments Exit {A} code.
Arguments Raise {A} e.

(** A computation: from the lines printed so far to an outcome and the lines
    printed by the time it stops. *)
Definition M (A : Type) : Type := list string → outcome A * list string.

Definition ret {A} (a : A) : M A := λ out, (Ret a, out).

Definition bind {A B} (m : M A) (k : A → M B) : M B :=
  λ out,
    match m out with
    | (Ret a, out') => k a out'
    | (Exit c, out') => (Exit c, out')
    | (Raise e, out') => (Raise e, out')
    end.

Definition print (line : string) : M unit := λ out, (Ret tt, out ++ [line]).
Definition exit {A} (code : Z) : M A := λ out, (Exit code, out).
Definition raise {A} (e : exn) : M A := λ out, (Raise e, out).

Notation "x <~ m ; k" := (bind m (λ x, k))
  (at level 100, m at next level, k at level 200, right associativity,
   format "'[v' x  <~  m ; '/' k ']'").
Notation "m ;, k" := (bind m (λ _, k))
  (at level 100, k at level 200, right associativity).

(** [dict[key]]: a missing key raises KeyError. *)
Definition subscript {V} (dict : gmap string V) (key : string) : M V :=
  match dict !! key with
  | Some v => ret v
  | None => raise (KeyError key)
  end.

(** The right operand of a string concatenation: anything but a [str]
    raises TypeError. *)
Definition as_str (v : value) : M string :=
  match v with
  | VStr s => ret s
  | VArr _ => raise TypeError
  end.

(** ** class Override *)

Record Override := { element : string; arg : string }.

Definition Override_init (option : string) : Override :=
  let sep := ":" in
  if negb (String.eqb option "") && PyStr.str_in sep option then
    match PyStr.index_of ":" option with
    | Some i =>
        {| element := PyStr.strip (PyStr.slice 0 i option);
           arg := " " +:+ PyStr.strip
                    (PyStr.slice (i + 1) (String.length option) option) |}
    | None => {| element := ""; arg := "" |} (* not reached: [sep in option] *)
    end
  else {| element := ""; arg := "" |}.

(** The default argument [Override()]. *)
Definition Override_default : Override := Override_init "".

(** ** lf_args *)

Fixpoint lf_args (elem command : string) (dict_list : list document) : M value :=
  match dict_list with
  | [] =>
      print ("Error: element '" +:+ elem +:+ "' not found in any TOML files.") ;,
      exit (-1)
  | dict :: rest =>
      t <~ subscript dict command ;
      match t !! elem with
      | Some v => ret v
      | None => lf_args elem command rest
      end
  end.

(** ** checkCommand *)

(** [checkCommand] returns the integer 0 or an error text. *)
Inductive check_result :=
  | Zero
  | Text (msg : string).

Fixpoint checkCommand (command : string) (dict_list : list document) : M check_result :=
  match dict_list with
  | [] => ret Zero
  | dict :: rest =>
      t <~ subscript dict command ;
      match t !! "status" with
      | Some st =>
          status <~ as_str st ;
          header <~ subscript dict "header" ;
          nm <~ subscript header "name" ;
          name <~ as_str nm ;
          ret (Text ("Error: received the status: '" +:+ status
                     +:+ "' from the TOML file:" +:+ name))
      | None => checkCommand command rest
      end
  end.

(** ** generateCommand *)

(** The three local variables of the token loop. *)
Record locals := {
  commands_to_run : string;
  next_no_space : bool;
  first_cmd : bool
}.

(** The search [for dict in dict_list: if run in dict[command]: ... break];
    [None] when [exe_command] is never bound. *)
Fixpoint find_run (run command : string) (dict_list : list document) : M (option value) :=
  match dict_list with
  | [] => ret None
  | dict :: rest =>
      t <~ subscript dict command ;
      match t !! run with
      | Some v => ret (Some v)
      | None => find_run run command rest
      end
  end.

(** [for element in exe_command]: the elements of an array, the characters
    of a string. *)
Definition elements_of (exe_command : value) : list string :=
  match exe_command with
  | VArr l => l
  | VStr s => PyStr.chars s
  end.

Definition underscore_warning (elem : string) : string :=
  "Warning: the use of underscores is reserved."
  +:+ " Try not to use them in the TOML keys! (in '" +:+ elem +:+ "')".

Section Tokens.

Variables (command : string) (dict_list : list document) (source : string)
          (override : Override).

(** One iteration of the [for element in exe_command] loop. *)
Definition loop_body (st : locals) (elem : string) : M locals :=
  let cr := commands_to_run st in
  let len := String.length elem in
  if PyStr.str_in "_make" (PyStr.slice 0 5 elem) then
    ret {| commands_to_run :=
             (if first_cmd st then cr else cr +:+ ";")
             +:+ " make -j$(($(nproc) - 1)) -C " +:+ source;
           next_no_space := next_no_space st;
           first_cmd := false |}
  else if PyStr.str_in "_cmake" (PyStr.slice 0 6 elem) then
    ret {| commands_to_run :=
             (if first_cmd st then cr else cr +:+ ";")
             +:+ " cmake -S " +:+ source;
           next_no_space := next_no_space st;
           first_cmd := false |}
  else if PyStr.str_in "_src_" (PyStr.slice 0 5 elem) then
    ret {| commands_to_run :=
             (if next_no_space st then cr else cr +:+ " ") +:+ source;
           next_no_space := true;
           first_cmd := first_cmd st |}
  else if String.eqb (element override) elem && negb (String.eqb elem "") then
    ret {| commands_to_run := cr +:+ arg override;
           next_no_space := next_no_space st;
           first_cmd := first_cmd st |}
  else
    match PyStr.item 0 elem, PyStr.item (len - 1) elem with
    | Some c0, Some cl =>
        if Ascii.eqb c0 "_" && Ascii.eqb cl "_" then
          v <~ lf_args (PyStr.slice 1 (len - 1) elem) command dict_list ;
          s <~ as_str v ;
          ret {| commands_to_run := cr +:+ s;
                 next_no_space := true;
                 first_cmd := first_cmd st |}
        else if Ascii.eqb cl "=" then
          ret {| commands_to_run := cr +:+ " " +:+ elem;
                 next_no_space := true;
                 first_cmd := first_cmd st |}
        else
          (if PyStr.str_in "_" elem then print (underscore_warning elem)
           else ret tt) ;,
          v <~ lf_args elem command dict_list ;
          s <~ as_str v ;
          if next_no_space st then
            ret {| commands_to_run := cr +:+ s;
                   next_no_space := false;
                   first_cmd := first_cmd st |}
          else
            ret {| commands_to_run := cr +:+ " " +:+ s;
                   next_no_space := false;
                   first_cmd := first_cmd st |}
    | _, _ => raise IndexError
    end.

Fixpoint for_elements (elems : list string) (st : locals) : M locals :=
  match elems with
  | [] => ret st
  | elem :: rest => st' <~ loop_body st elem ; for_elements rest st'
  end.

End Tokens.

Definition generateCommand (command : string) (dict_list : list document)
    (source : string) (run_flash : bool) (override : Override) : M string :=
  r <~ checkCommand command dict_list ;
  match r with
  | Text msg => ret msg
  | Zero =>
      let run := if run_flash then "flashCommand" else "exeCommand" in
      found <~ find_run run command dict_list ;
      match found with
      | None => ret ("Error: " +:+ run +:+ " not found in any TOML files.")
      | Some exe_command =>
          st <~ for_elements command dict_list source override
                  (elements_of exe_command)
                  {| commands_to_run := ""; next_no_space := false;
                     first_cmd := true |} ;
          ret (commands_to_run st +:+ " ")
      end
  end.

(** ** main: building the list of documents *)

(** What [open(path, "rb")] followed by [tomli.load(f)] finds at a path. A
    path absent from the file system does not exist. *)
Inductive file :=
  | Unreadable (msg : string)   (* [open] raises OSError *)
  | Unparsable (msg : string)   (* [tomli.load] raises TOMLDecodeError *)
  | Parsed (d : document).

Abbreviation file_system := (gmap string file).

(** The state of the [while 'include' in toml_dict['header']] loop: the
    document read last, the list built so far and the name of the file
    object [f] bound last. *)
Record loader := {
  toml_dict : document;
  lst_toml_files : list document;
  f_name : string
}.

(** [str(e)] for the exceptions the loader prints. *)
Definition str_of_exn (e : exn) : string :=
  match e with
  | KeyError key => "'" +:+ key +:+ "'"
  | IndexError => "string index out of range"
  | TypeError => "expected str, bytes or os.PathLike object, not list"
  | OSError msg => msg
  | TOMLDecodeError msg => msg
  end.

(** The handler [except Exception as e] of the loop. *)
Definition parsing_failed {A} (name : string) (e : exn) : M A :=
  print ("Error during parsing of " +:+ name +:+ " : " +:+ str_of_exn e) ;,
  exit (-1).

Definition no_such_file (path : string) : string :=
  "[Errno 2] No such file or directory: '" +:+ path +:+ "'".

Section Loading.

Variable fs : file_system.

(** [with open(args.inputFile, "rb") as f: toml_dict = tomli.load(f)],
    outside any handler. *)
Definition load_input (inputFile : string) : M document :=
  match fs !! inputFile with
  | None => raise (OSError (no_such_file inputFile))
  | Some (Unreadable msg) => raise (OSError msg)
  | Some (Unparsable msg) => raise (TOMLDecodeError msg)
  | Some (Parsed d) => ret d
  end.

(** The tests on the document of [args.inputFile]: header, name, and the
    reserved table [all]. *)
Definition check_input (toml_dict : document) : M unit :=
  (match toml_dict !! "header" with
   | Some header =>
       match header !! "name" with
       | Some _ => ret tt
       | None => print "Error: header needs a 'name' key." ;, exit (-1)
       end
   | None => print "Error: header not found in TOML file." ;, exit (-1)
   end) ;,
  match toml_dict !! "all" with
  | Some _ => print "Error 'all' can't be used as a table." ;, exit (-1)
  | None => ret tt
  end.

(** The loop, run for at most [fuel] tests of its condition; [None] when
    the loop is still running after them. A loop that never ends gives
    [None] for every [fuel]: memory is not bounded here. *)
Fixpoint follow_includes (fuel : nat) (st : loader)
    : option (M (list document)) :=
  match fuel with
  | O => None
  | S fuel' =>
      match toml_dict st !! "header" with
      | None => Some (parsing_failed (f_name st) (KeyError "header"))
      | Some header =>
          match header !! "include" with
          | None => Some (ret (lst_toml_files st))
          | Some (VArr _) => Some (parsing_failed (f_name st) TypeError)
          | Some (VStr path) =>
              match fs !! path with
              | None =>
                  Some (parsing_failed (f_name st) (OSError (no_such_file path)))
              | Some (Unreadable msg) =>
                  Some (parsing_failed (f_name st) (OSError msg))
              | Some (Unparsable msg) =>
                  Some (parsing_failed path (TOMLDecodeError msg))
              | Some (Parsed d) =>
                  follow_includes fuel'
                    {| toml_dict := d;
                       lst_toml_files := lst_toml_files st ++ [d];
                       f_name := path |}
              end
          end
      end
  end.

(** [main] from the first [open] to the end of the loop (without
    [--debug]): the list of documents handed to the rest of [main]. *)
Definition load_documents (fuel : nat) (inputFile : string)
    : list string → option (outcome (list document) * list string) :=
  λ out,
    match (d <~ load_input inputFile ; check_input d ;, ret d) out with
    | (Ret d, out') =>
        (λ m : M (list document), m out') <$>
        follow_includes fuel
          {| toml_dict := d; lst_toml_files := [d]; f_name := inputFile |}
    | (Exit c, out') => Some (Exit c, out')
    | (Raise e, out') => Some (Raise e, out')
    end.

End Loading.

(** ** main: the source directory and the command *)

Record arguments := {
  a_command : string;
  a_source : option string;
  a_inputFile : string;
  a_flash : bool;
  a_override : option string
}.

Section Main.

Variable isdir : string → bool.

(** [lst_toml_files[0]['header']['source']], after the test that the key
    is there. *)
Definition header_source (lst : list document) : M value :=
  match lst with
  | [] => raise IndexError
  | first :: _ =>
      header <~ subscript first "header" ;
      match header !! "source" with
      | Some v => ret v
      | None =>
          print "Error: missing a source argument in TOML header or in command option." ;,
          exit (-1)
      end
  end.

(** [source]: the option [--source] unless it is missing or empty, else
    the header's; then the test of the directory and the final slash. *)
Definition choose_source (args : arguments) (lst : list document) : M string :=
  v <~
    (match a_source args with
     | Some s => if String.eqb s "" then header_source lst else ret (VStr s)
     | None => header_source lst
     end) ;
  source <~ as_str v ;
  if isdir source then
    match PyStr.item (String.length source - 1) source with
    | Some c => if Ascii.eqb c "/" then ret source else ret (source +:+ "/")
    | None => raise IndexError
    end
  else
    print "Error: The source directory specified is not found." ;,
    exit (-20).

(** The loop [for dict in lst_toml_files: if not (cmd in dict): ...];
    [filename] is bound once a document without the table was seen. *)
Fixpoint unsupported (cmd : string) (lst : list document)
    (filename : option value) : M (option value) :=
  match lst with
  | [] => ret filename
  | dict :: rest =>
      match dict !! cmd with
      | Some _ => unsupported cmd rest filename
      | None =>
          header <~ subscript dict "header" ;
          name <~ subscript header "name" ;
          unsupported cmd rest (Some name)
      end
  end.

(** The test [if cmd != "all":] of [main] and its first branch, up to the
    command that is printed and, unless [--noexe], handed to [exec]. [cmd],
    [source] and [run_flash] are the variables that the parts of [main]
    before the test have set, [override] is [args.override]. The other
    branch, [else: # all], walks through the keys of the first document in
    the order of the file, which a finite map does not keep: it is not
    embedded, and [None] stands for it. *)
Definition run_command (cmd : string) (lst : list document) (source : string)
    (run_flash : bool) (override : option string) : option (M string) :=
  if String.eqb cmd "all" then None
  else Some (
    filename <~ unsupported cmd lst None ;
    match filename with
    | Some name =>
        n <~ as_str name ;
        print ("Error the command: '" +:+ cmd +:+ "' is not found. Check the file: "
               +:+ n +:+ ".toml") ;,
        exit (-1)
    | None =>
        r <~ checkCommand cmd lst ;
        command <~
          (match r with
           | Zero =>
               let override :=
                 match override with
                 | Some o => if String.eqb o "" then "" else o
                 | None => ""
                 end in
               generateCommand cmd lst source run_flash (Override_init override)
           | Text msg => ret msg
           end) ;
        print "" ;,
        print command ;,
        if String.eqb (PyStr.slice 0 5 command) "Error" then exit (-1)
        else ret command
    end).

End Main.

(** ** The tests of the token loop, named *)

(** The branch of [loop_body] an element takes: the tests of the source, in
    the order of the source. *)
Inductive kind :=
  | BuildTool
  | ConfigureTool
  | SourceDir
  | Overridden
  | AdjacencyKey (inner : string)
  | Assignment
  | Plain
  | NoCharacter.

Definition classify (override : Override) (elem : string) : kind :=
  let len := String.length elem in
  if PyStr.str_in "_make" (PyStr.slice 0 5 elem) then BuildTool
  else if PyStr.str_in "_cmake" (PyStr.slice 0 6 elem) then ConfigureTool
  else if PyStr.str_in "_src_" (PyStr.slice 0 5 elem) then SourceDir
  else if String.eqb (element override) elem && negb (String.eqb elem "")
  then Overridden
  else
    match PyStr.item 0 elem, PyStr.item (len - 1) elem with
    | Some c0, Some cl =>
        if Ascii.eqb c0 "_" && Ascii.eqb cl "_"
        then AdjacencyKey (PyStr.slice 1 (len - 1) elem)
        else if Ascii.eqb cl "=" then Assignment
        else Plain
    | _, _ => NoCharacter
    end.

(** The field of the command table that the mode selects. *)
Definition run_key (run_flash : bool) : string :=
  if run_flash then "flashCommand" else "exeCommand".

(** [commands_to_run += text], the two flags kept. *)
Definition emit (st : locals) (text : string) : locals :=
  {| commands_to_run := commands_to_run st +:+ text;
     next_no_space := next_no_space st;
     first_cmd := first_cmd st |}.

(** [commands_to_run += text], then [next_no_space] set as given. *)
Definition emit_flag (st : locals) (text : string) (flag : bool) : locals :=
  {| commands_to_run := commands_to_run st +:+ text;
     next_no_space := flag;
     first_cmd := first_cmd st |}.

(** The lines a plain element prints before it is looked up. *)
Definition warnings (elem : string) : list string :=
  if PyStr.str_in "_" elem then [underscore_warning elem] else [].

(** [lf_args] returns the string [text] for [key], printing nothing. *)
Definition resolves (command : string) (dict_list : list document)
    (key text : string) : Prop :=
  ∀ out, lf_args key command dict_list out = (Ret (VStr text), out).

(** A computation whose outcome and printed lines are fixed: it reads
    nothing of the lines printed before it and only adds its own. *)
Definition fixed {A} (m : M A) : Prop :=
  ∃ (r : outcome A) (lines : list string), ∀ out, m out = (r, out ++ lines).

(** A document has a table for [command] in which [key] is absent. *)
Definition table_without (command key : string) (dict : document) : Prop :=
  ∃ t : table, dict !! command = Some t ∧ t !! key = None.

(** The header of a document names [path] as its include. *)
Definition includes (d : document) (path : string) : Prop :=
  ∃ header : table,
    d !! "header" = Some header ∧ header !! "include" = Some (VStr path).

(** One include between two parsed files of the file system. *)
Definition include_edge (fs : file_system) (p q : string) : Prop :=
  ∃ d d' : document,
    fs !! p = Some (Parsed d) ∧ includes d q ∧ fs !! q = Some (Parsed d').

(** No file is reached from itself by one or more includes. *)
Definition acyclic (fs : file_system) : Prop :=
  ∀ p, ¬ tc (include_edge fs) p p.

(** [rank] goes down along every include between two parsed files. *)
Definition ranked (fs : file_system) (rank : string → nat) : Prop :=
  ∀ p q, include_edge fs p q → rank q < rank p.

(** ** Documents used below *)

Module Sample.

Definition header_of (name : string) : table := {[ "name" := VStr name ]}.

Definition header_including (name path : string) : table :=
  <["include" := VStr path]> (header_of name).

(** The example of the header of [pyMake.py]. *)
Definition header : table :=
  <["name" := VStr "test"]> (<["type" := VStr "core"]> ∅).

Definition example : table :=
  <["exeCommand" := VArr ["_make"; "optimization"; "target"; "BUILD_PLAT="; "buildDir"]]>
  (<["optimization" := VStr ""]>
  (<["target" := VStr "all"]>
  (<["buildDir" := VStr "../build"]> ∅))).

Definition test_toml : document :=
  <["header" := header]> (<["example" := example]> ∅).

(** The key [target] twice in the command. *)
Definition twice_toml : document :=
  <["header" := header_of "twice"]>
  (<["example" :=
       <["exeCommand" := VArr ["target"; "target"]]>
       (<["target" := VStr "all"]> ∅)]> ∅).

(** A document with a header only. *)
Definition bare_toml : document := {[ "header" := header_of "bare" ]}.

(** A document whose table [example] sets one option only. *)
Definition board_toml : document :=
  <["header" := header_of "board"]>
  (<["example" := {[ "optimization" := VStr "-O2" ]}]> ∅).

(** A document that disables [example]. *)
Definition disabled_toml : document :=
  <["header" := header_of "base"]>
  (<["example" :=
       <["status" := VStr "disabled"]>
       (<["exeCommand" := VArr ["_make"; "target"]]>
       (<["target" := VStr "all"]> ∅))]> ∅).

(** A document that disables [example] and gives it no command. *)
Definition blocked_toml : document :=
  <["header" := header_of "blocked"]>
  (<["example" := {[ "status" := VStr "disabled" ]}]> ∅).

Definition spacing_toml : document :=
  <["header" := header_of "spacing"]>
  (<["example" :=
       <["foo" := VStr "X"]> (<["bar" := VStr "Y"]> (<["baz" := VStr "Z"]> ∅))]> ∅).

(** The local variables after a first [_make]. *)
Definition started : locals :=
  {| commands_to_run := " make"; next_no_space := false; first_cmd := false |}.

(** Two files that include each other. *)
Definition a_toml : document := {[ "header" := header_including "a" "b.toml" ]}.
Definition b_toml : document := {[ "header" := header_including "b" "a.toml" ]}.
Definition cycle : file_system :=
  <["a.toml" := Parsed a_toml]> (<["b.toml" := Parsed b_toml]> ∅).

(** Three layers: [custom.toml] includes [board.toml] includes [mp.toml]. *)
Definition custom_toml : document :=
  <["header" := header_including "custom" "board.toml"]>
  (<["example" := {[ "target" := VStr "boot" ]}]> ∅).
Definition layer_toml : document :=
  <["header" := header_including "board" "mp.toml"]>
  (<["example" := {[ "optimization" := VStr "-O2" ]}]> ∅).
Definition layers : file_system :=
  <["custom.toml" := Parsed custom_toml]>
  (<["board.toml" := Parsed layer_toml]>
  (<["mp.toml" := Parsed test_toml]> ∅)).
Definition layers_rank (path : string) : nat :=
  if String.eqb path "custom.toml" then 2
  else if String.eqb path "board.toml" then 1
  else 0.

(** A table [all] in the file given on the command line, and in a file
    it includes. *)
Definition reserved_toml : document :=
  <["all" := {[ "target" := VStr "all" ]}]> test_toml.
Definition reserved_root : file_system := {[ "reserved.toml" := Parsed reserved_toml ]}.

Definition root_toml : document :=
  <["header" := header_including "root" "base.toml"]>
  (<["example" := {[ "target" := VStr "boot" ]}]> ∅).
Definition base_toml : document :=
  <["all" := {[ "target" := VStr "all" ]}]> test_toml.
Definition reserved_include : file_system :=
  <["root.toml" := Parsed root_toml]> (<["base.toml" := Parsed base_toml]> ∅).


End Sample.

(** ** getSource *)

(** What [int(inpt)] gives for the line typed. *)
Inductive typed :=
  | IsInt (z : Z)
  | NotInt (msg : string).   (* ValueError, with its text *)

(** What [input("Choice: ")] gives. The prompt it writes is not a printed
    line and is not recorded. *)
Inductive answer :=
  | Interrupt                (* KeyboardInterrupt *)
  | EndOfFile                (* EOFError *)
  | Typed (t : typed).

(** [l[i]] on a list, with Python's negative indices; [None] is IndexError. *)
Definition list_item {A} (l : list A) (i : Z) : option A :=
  if (0 <=? i)%Z then l !! Z.to_nat i
  else if (- Z.of_nat (length l) <=? i)%Z
       then l !! Z.to_nat (Z.of_nat (length l) + i)
       else None.

(** The handler [except Exception as e] of the two prompts. *)
Definition input_error {A} (msg : string) : M A :=
  print ("Input error: " +:+ msg) ;, exit (-1).

(** [for n in range(0, len(directories)): print(str(n+1)+".", directories[n])]. *)
Definition menu_lines (directories : list string) : list string :=
  imap (λ n dir, pretty (n + 1) +:+ "." +:+ " " +:+ dir) directories.

Fixpoint print_all (lines : list string) : M unit :=
  match lines with
  | [] => ret tt
  | line :: rest => print line ;, print_all rest
  end.

(** [choice = 0; for i in range(1, n+2): if int(inpt) == i: choice = i],
    with [n + 1] the number of directories. *)
Definition chosen (z : Z) (count : nat) : Z :=
  foldl (λ choice i, if (z =? Z.of_nat i)%Z then Z.of_nat i else choice)
        0%Z (seq 1 count).

Section GetSource.

(** [unbound_n] is the text of the NameError raised when the loop variable
    [n] of the first loop was never bound. *)
Variable unbound_n : string.

(** [getSource(cmd)], given the directories that [next(os.walk('../'+cmd))[1]]
    lists (the directory exists) and the answer to the prompt. *)
Definition getSource (directories : list string) (cmd : string) (ans : answer)
    : M string :=
  print_all (menu_lines directories) ;,
  choice <~
    (match ans with
     | Interrupt => print "" ;, exit 0
     | EndOfFile => input_error "EOF when reading a line"
     | Typed t =>
         match directories with
         | [] => input_error unbound_n
         | _ :: _ =>
             match t with
             | NotInt msg => input_error msg
             | IsInt z => ret (chosen z (length directories))
             end
         end
     end) ;
  if (choice <? 0)%Z || (Z.of_nat (length directories) <? choice)%Z then
    print "Error: choice out of range" ;, exit (-1)
  else
    match list_item directories (choice - 1) with
    | Some dir => ret ("../" +:+ cmd +:+ "/" +:+ dir +:+ "/")
    | None => raise IndexError
    end.

End GetSource.

(** ** Notions used in the further properties *)

(** A text begins with a space. *)
Definition begins_with_space (text : string) : Prop :=
  String.get 0 text = Some " "%char.

(** The element is a build-tool or configure-tool marker, and the text it
    adds after the separator. *)
Definition invocation (override : Override) (source elem : string)
    : option string :=
  match classify override elem with
  | BuildTool => Some (" make -j$(($(nproc) - 1)) -C " +:+ source)
  | ConfigureTool => Some (" cmake -S " +:+ source)
  | _ => None
  end.

(** Each document of the list names, as its include, a parsed file that
    holds the next document. *)
Fixpoint linked (fs : file_system) (lst : list document) : Prop :=
  match lst with
  | d :: ((d' :: _) as rest) =>
      (∃ path, includes d path ∧ fs !! path = Some (Parsed d')) ∧ linked fs rest
  | _ => True
  end.

(** The header of a document, with the name it declares. *)
Definition named (d : document) (name : string) : Prop :=
  ∃ header : table,
    d !! "header" = Some header ∧ header !! "name" = Some (VStr name).

(** The header of a document declares a name, of any type. *)
Definition declares_name (d : document) : Prop :=
  ∃ header : table, d !! "header" = Some header ∧ is_Some (header !! "name").

(** The header of a document names no include. *)
Definition ends_chain (d : document) : Prop :=
  ∃ header : table, d !! "header" = Some header ∧ header !! "include" = None.

(** * Properties *)

(** ** Reasoning about computations *)

Lemma bind_Ret {A B} (m : M A) (k : A → M B) out a out' :
  m out = (Ret a, out') → bind m k out = k a out'.
Proof. intros H. unfold bind. by rewrite H. Qed.

Lemma bind_Exit {A B} (m : M A) (k : A → M B) out c out' :
  m out = (Exit c, out') → bind m k out = (Exit c, out').
Proof. intros H. unfold bind. by rewrite H. Qed.

Lemma bind_Raise {A B} (m : M A) (k : A → M B) out e out' :
  m out = (Raise e, out') → bind m k out = (Raise e, out').
Proof. intros H. unfold bind. by rewrite H. Qed.

Lemma subscript_Some {V} (dict : gmap string V) key v out :
  dict !! key = Some v → subscript dict key out = (Ret v, out).
Proof. intros H. unfold subscript. by rewrite H. Qed.

Lemma subscript_None {V} (dict : gmap string V) key out :
  dict !! key = None → subscript dict key out = (Raise (KeyError key), out).
Proof. intros H. unfold subscript. by rewrite H. Qed.

(** Rewrites the head of a [bind] whose first computation is a successful or
    a failing lookup known from the context. *)
Ltac step_lookup :=
  match goal with
  | H : ?d !! ?k = Some _ |- context [bind (subscript ?d ?k) _ ?out] =>
      rewrite (bind_Ret _ _ _ _ _ (subscript_Some d k _ out H))
  | H : ?d !! ?k = None |- context [bind (subscript ?d ?k) _ ?out] =>
      rewrite (bind_Raise _ _ _ _ _ (subscript_None d k out H))
  end.

(** ** Key resolution *)

Lemma lf_args_skip elem command (pre rest : list document) out :
  Forall (table_without command elem) pre →
  lf_args elem command (pre ++ rest) out = lf_args elem command rest out.
Proof.
  induction 1 as [|d pre (t & Ht & Hk) _ IH]; [done|].
  simpl. step_lookup. by rewrite Hk.
Qed.

Lemma lf_args_here elem command (d : document) (t : table) v rest out :
  d !! command = Some t → t !! elem = Some v →
  lf_args elem command (d :: rest) out = (Ret v, out).
Proof. intros Ht Hk. simpl. step_lookup. by rewrite Hk. Qed.

Lemma lf_args_no_table elem command (d : document) rest out :
  d !! command = None →
  lf_args elem command (d :: rest) out = (Raise (KeyError command), out).
Proof. intros Ht. simpl. by step_lookup. Qed.

(** The shadowing case: when the first two documents both define the key
    under the command, the value of the first is returned. *)
Lemma lf_args_shadowing elem command (d0 d1 : document) (t0 t1 : table)
    v0 v1 rest out :
  d0 !! command = Some t0 → t0 !! elem = Some v0 →
  d1 !! command = Some t1 → t1 !! elem = Some v1 →
  lf_args elem command (d0 :: d1 :: rest) out = (Ret v0, out).
Proof. intros H0 K0 _ _. by apply (lf_args_here _ _ _ t0). Qed.

(** When no document defines the key (and all have the table), [lf_args]
    prints its message and leaves the program. *)
Lemma lf_args_unresolved elem command (dict_list : list document) out :
  Forall (table_without command elem) dict_list →
  lf_args elem command dict_list out
  = (Exit (-1),
     out ++ ["Error: element '" +:+ elem +:+ "' not found in any TOML files."]).
Proof.
  intros H. rewrite <- (app_nil_r dict_list). by rewrite lf_args_skip.
Qed.

(** C5 (as amended). Key resolution is first-match-wins over the order of the
    documents: [lf_args] returns the value of the first document whose table
    for the command defines the key, provided every document before it has a
    table for that command. *)
Theorem lf_args_first_match elem command (pre : list document)
    (d : document) (t : table) v post out :
  Forall (table_without command elem) pre →
  d !! command = Some t → t !! elem = Some v →
  lf_args elem command (pre ++ d :: post) out = (Ret v, out).
Proof.
  intros Hpre Ht Hk. rewrite lf_args_skip by done. by apply (lf_args_here _ _ _ t).
Qed.

Lemma lf_args_first_match_witness :
  lf_args "target" "example" [Sample.board_toml; Sample.test_toml] []
  = (Ret (VStr "all"), []).
Proof.
  apply (lf_args_first_match "target" "example" [Sample.board_toml]
           Sample.test_toml Sample.example (VStr "all") [] []).
  - constructor; [|constructor].
    exists {[ "optimization" := VStr "-O2" ]}. split; reflexivity.
  - reflexivity.
  - reflexivity.
Defined.

(** C5, the statement of the specification fails: the second document is the first one whose
    table [example] defines [target], the first document has no such table,
    and the lookup stops there with a KeyError. *)
Lemma lf_args_missing_table :
  Sample.bare_toml !! "example" = None
  ∧ Sample.test_toml !! "example" ≫= (λ t : table, t !! "target")
    = Some (VStr "all")
  ∧ lf_args "target" "example" [Sample.bare_toml; Sample.test_toml] []
    = (Raise (KeyError "example"), []).
Proof. repeat split; reflexivity. Qed.

(** ** The status gate *)

Lemma checkCommand_skip command (pre rest : list document) out :
  Forall (table_without command "status") pre →
  checkCommand command (pre ++ rest) out = checkCommand command rest out.
Proof.
  induction 1 as [|d pre (t & Ht & Hk) _ IH]; [done|].
  simpl. step_lookup. by rewrite Hk.
Qed.

Lemma checkCommand_zero command (dict_list : list document) out :
  Forall (table_without command "status") dict_list →
  checkCommand command dict_list out = (Ret Zero, out).
Proof.
  intros H. rewrite <- (app_nil_r dict_list). by rewrite checkCommand_skip.
Qed.

Lemma checkCommand_blocked command (d : document) (t hd : table)
    status name rest out :
  d !! command = Some t → t !! "status" = Some (VStr status) →
  d !! "header" = Some hd → hd !! "name" = Some (VStr name) →
  checkCommand command (d :: rest) out
  = (Ret (Text ("Error: received the status: '" +:+ status
                +:+ "' from the TOML file:" +:+ name)), out).
Proof.
  intros Ht Hs Hh Hn. simpl. step_lookup. rewrite Hs. simpl.
  unfold bind at 1. simpl. step_lookup. by step_lookup.
Qed.

(** [checkCommand] passes only when every document has the table, without
    a status. *)
Lemma checkCommand_zero_inv command (dict_list : list document) out out' :
  checkCommand command dict_list out = (Ret Zero, out') →
  Forall (table_without command "status") dict_list.
Proof.
  induction dict_list as [|d rest IH]; intros H; [constructor|].
  simpl in H. unfold bind, subscript in H.
  destruct (d !! command) as [t|] eqn:Ht; [|discriminate].
  simpl in H. destruct (t !! "status") as [st|] eqn:Hs.
  - destruct st; simpl in H; [|discriminate].
    destruct (d !! "header") as [hd|]; simpl in H; [|discriminate].
    destruct (hd !! "name") as [[?|?]|]; simpl in H; discriminate.
  - constructor; [by exists t | by apply IH].
Qed.

(** C6 (as amended). When the first document whose table for the command
    carries a status is reached through documents that all have a table for
    the command, and its status and the name of its header are strings,
    [generateCommand] returns the text naming that status and that name, for
    any command lists and keys of the documents, and prints nothing. *)
Theorem status_short_circuit command (pre : list document) (d : document)
    (t hd : table) status name post source run_flash override out :
  Forall (table_without command "status") pre →
  d !! command = Some t → t !! "status" = Some (VStr status) →
  d !! "header" = Some hd → hd !! "name" = Some (VStr name) →
  generateCommand command (pre ++ d :: post) source run_flash override out
  = (Ret ("Error: received the status: '" +:+ status
          +:+ "' from the TOML file:" +:+ name), out).
Proof.
  intros Hpre Ht Hs Hh Hn. unfold generateCommand.
  rewrite (bind_Ret _ _ out (Text ("Error: received the status: '" +:+ status
             +:+ "' from the TOML file:" +:+ name)) out); [done|].
  rewrite checkCommand_skip by done. by apply (checkCommand_blocked _ _ t hd).
Qed.

Lemma status_short_circuit_witness :
  generateCommand "example" [Sample.board_toml; Sample.disabled_toml]
    "../linux/v1/" false Override_default []
  = (Ret "Error: received the status: 'disabled' from the TOML file:base", []).
Proof.
  apply (status_short_circuit "example" [Sample.board_toml]
           Sample.disabled_toml
           (<["status" := VStr "disabled"]>
            (<["exeCommand" := VArr ["_make"; "target"]]>
            (<["target" := VStr "all"]> ∅)))
           (Sample.header_of "base") "disabled" "base" []).
  - constructor; [|constructor].
    exists {[ "optimization" := VStr "-O2" ]}. split; reflexivity.
  - reflexivity.
  - reflexivity.
  - reflexivity.
  - reflexivity.
Defined.

(** C6, the statement of the specification fails: the table [example] of the second document
    carries a status, the first document has no table [example], and the
    call ends with a KeyError and no text. *)
Lemma status_missing_table :
  Sample.disabled_toml !! "example" ≫= (λ t : table, t !! "status")
    = Some (VStr "disabled")
  ∧ generateCommand "example" [Sample.bare_toml; Sample.disabled_toml]
      "../linux/v1/" false Override_default []
    = (Raise (KeyError "example"), []).
Proof. split; reflexivity. Qed.

(** ** The run key *)

Lemma find_run_none run command (dict_list : list document) out :
  Forall (table_without command run) dict_list →
  find_run run command dict_list out = (Ret None, out).
Proof.
  induction 1 as [|d rest (t & Ht & Hk) _ IH]; [done|].
  simpl. step_lookup. by rewrite Hk.
Qed.

(** C7 (as amended). When every document has a table for the command, none
    of these tables carries a status and none defines the field chosen by
    the mode, [generateCommand] returns the text that the field was not
    found: no command, whole or partial, and nothing printed. *)
Theorem missing_run_key command (dict_list : list document) source
    (run_flash : bool) override out :
  Forall (table_without command "status") dict_list →
  Forall (table_without command (run_key run_flash)) dict_list →
  generateCommand command dict_list source run_flash override out
  = (Ret ("Error: " +:+ run_key run_flash +:+ " not found in any TOML files."),
     out).
Proof.
  intros Hs Hr. unfold generateCommand.
  rewrite (bind_Ret _ _ _ _ _ (checkCommand_zero _ _ out Hs)).
  fold (run_key run_flash).
  by rewrite (bind_Ret _ _ _ _ _ (find_run_none _ _ _ out Hr)).
Qed.

Lemma missing_run_key_witness :
  generateCommand "example" [Sample.board_toml] "../linux/v1/" true
    Override_default []
  = (Ret "Error: flashCommand not found in any TOML files.", []).
Proof.
  apply (missing_run_key "example" [Sample.board_toml] "../linux/v1/" true
           Override_default []).
  - constructor; [|constructor].
    exists {[ "optimization" := VStr "-O2" ]}. split; reflexivity.
  - constructor; [|constructor].
    exists {[ "optimization" := VStr "-O2" ]}. split; reflexivity.
Defined.

(** C7, the statement of the specification fails: no document defines [exeCommand] under
    [example]; with a status in the table the status text is returned
    instead of the missing-field text, and with a document that has no table
    [example] the call ends with a KeyError. *)
Lemma missing_run_key_not_reached :
  Sample.blocked_toml !! "example" ≫= (λ t : table, t !! "exeCommand") = None
  ∧ generateCommand "example" [Sample.blocked_toml] "../linux/v1/" false
      Override_default []
    = (Ret "Error: received the status: 'disabled' from the TOML file:blocked", [])
  ∧ Sample.bare_toml !! "example" ≫= (λ t : table, t !! "exeCommand") = None
  ∧ generateCommand "example" [Sample.bare_toml] "../linux/v1/" false
      Override_default []
    = (Raise (KeyError "example"), []).
Proof. repeat split; reflexivity. Qed.

(** ** The token loop *)

Lemma append_assoc (s1 s2 s3 : string) : (s1 +:+ s2) +:+ s3 = s1 +:+ s2 +:+ s3.
Proof.
  induction s1 as [|c s1 IH]; [done|].
  change (String c ((s1 +:+ s2) +:+ s3) = String c (s1 +:+ s2 +:+ s3)).
  by f_equal.
Qed.

Lemma length_append (s1 s2 : string) :
  String.length (s1 +:+ s2) = String.length s1 + String.length s2.
Proof.
  induction s1 as [|c s1 IH]; [done|].
  change (S (String.length (s1 +:+ s2)) = S (String.length s1 + String.length s2)).
  by rewrite IH.
Qed.

Lemma substring_append (s1 s2 : string) :
  substring 0 (String.length s1) (s1 +:+ s2) = s1.
Proof.
  induction s1 as [|c s1 IH]; [by destruct s2|].
  change (String c (substring 0 (String.length s1) (s1 +:+ s2)) = String c s1).
  by rewrite IH.
Qed.

(** The key of an element written [_key_] is what stands between the two
    underscores. *)
Lemma wrapped_inner key :
  let elem := "_" +:+ key +:+ "_" in
  PyStr.slice 1 (String.length elem - 1) elem = key.
Proof.
  unfold PyStr.slice.
  change ("_" +:+ key +:+ "_") with (String "_" (key +:+ "_")).
  cbn [String.length substring]. rewrite length_append. cbn [String.length].
  replace (S (String.length key + 1) - 1 - 1) with (String.length key) by lia.
  apply substring_append.
Qed.

Section TokenLemmas.

Variables (command : string) (dict_list : list document) (source : string)
          (override : Override).

Local Abbreviation body := (loop_body command dict_list source override).
Local Abbreviation loop := (for_elements command dict_list source override).

(** Case analysis on the tests of [classify] and [loop_body], which are
    the same tests in the same order. *)
Local Ltac by_tests H :=
  unfold classify in H; unfold loop_body;
  repeat match type of H with
    | (if ?c then _ else _) = _ => destruct c eqn:?; try discriminate H
    | match ?o with Some _ => _ | None => _ end = _ =>
        destruct o eqn:?; try discriminate H
    end.

Lemma loop_body_overridden st elem out :
  classify override elem = Overridden →
  body st elem out = (Ret (emit st (arg override)), out).
Proof. intros H. by_tests H. reflexivity. Qed.

Lemma loop_body_adjacency st elem inner text out :
  classify override elem = AdjacencyKey inner →
  resolves command dict_list inner text →
  body st elem out = (Ret (emit_flag st text true), out).
Proof.
  intros H Hres. by_tests H. injection H as ->.
  by rewrite (bind_Ret _ _ _ _ _ (Hres out)).
Qed.

Lemma loop_body_assignment st elem out :
  classify override elem = Assignment →
  body st elem out = (Ret (emit_flag st (" " +:+ elem) true), out).
Proof. intros H. by_tests H. reflexivity. Qed.

Lemma loop_body_plain st elem text out :
  classify override elem = Plain →
  resolves command dict_list elem text →
  body st elem out
  = (Ret (emit_flag st ((if next_no_space st then "" else " ") +:+ text) false),
     out ++ warnings elem).
Proof.
  intros H Hres. by_tests H. unfold warnings, bind at 1.
  destruct (PyStr.str_in "_" elem); simpl.
  - rewrite (bind_Ret _ _ _ _ _ (Hres _)). simpl. by destruct (next_no_space st).
  - rewrite (bind_Ret _ _ _ _ _ (Hres _)), app_nil_r. simpl.
    by destruct (next_no_space st).
Qed.

Lemma loop_body_build_tool st elem out :
  classify override elem = BuildTool →
  body st elem out
  = (Ret {| commands_to_run :=
              (if first_cmd st then commands_to_run st
               else commands_to_run st +:+ ";")
              +:+ " make -j$(($(nproc) - 1)) -C " +:+ source;
            next_no_space := next_no_space st;
            first_cmd := false |}, out).
Proof. intros H. by_tests H. reflexivity. Qed.

Lemma loop_body_configure_tool st elem out :
  classify override elem = ConfigureTool →
  body st elem out
  = (Ret {| commands_to_run :=
              (if first_cmd st then commands_to_run st
               else commands_to_run st +:+ ";")
              +:+ " cmake -S " +:+ source;
            next_no_space := next_no_space st;
            first_cmd := false |}, out).
Proof. intros H. by_tests H. reflexivity. Qed.

Lemma loop_body_source_dir st elem out :
  classify override elem = SourceDir →
  body st elem out
  = (Ret {| commands_to_run :=
              (if next_no_space st then commands_to_run st
               else commands_to_run st +:+ " ") +:+ source;
            next_no_space := true;
            first_cmd := first_cmd st |}, out).
Proof. intros H. by_tests H. reflexivity. Qed.

Lemma loop_body_no_character st out :
  body st "" out = (Raise IndexError, out).
Proof.
  unfold loop_body. simpl.
  by destruct (String.eqb (element override) "").
Qed.

Lemma for_elements_app (l1 l2 : list string) st out :
  loop (l1 ++ l2) st out = bind (loop l1 st) (loop l2) out.
Proof.
  revert st out. induction l1 as [|e l1 IH]; intros st out; [reflexivity|].
  simpl. unfold bind at 1 2 3.
  destruct (body st e out) as [[st'| |] out']; [|done..].
  apply IH.
Qed.

(** C8. An adjacency-key element [_foo_] followed by a plain element [bar]
    adds the two resolved strings with nothing between them. Two plain
    elements in a row add their resolved strings with exactly one space
    between them; the space in front of the first is there unless the
    element before left the adjacency flag set. Only the warnings of the
    plain elements are printed. *)
Theorem adjacency_spacing st tok foo bar baz X Y Z out :
  classify override tok = AdjacencyKey foo →
  classify override bar = Plain →
  classify override baz = Plain →
  resolves command dict_list foo X →
  resolves command dict_list bar Y →
  resolves command dict_list baz Z →
  loop [tok; bar] st out
  = (Ret (emit_flag st (X +:+ Y) false), out ++ warnings bar)
  ∧ loop [bar; baz] st out
  = (Ret (emit_flag st
            ((if next_no_space st then "" else " ") +:+ Y +:+ " " +:+ Z) false),
     out ++ warnings bar ++ warnings baz).
Proof.
  intros Htok Hbar Hbaz HX HY HZ. split; simpl.
  - rewrite (bind_Ret _ _ _ _ _ (loop_body_adjacency st _ _ _ out Htok HX)).
    rewrite (bind_Ret _ _ _ _ _
               (loop_body_plain (emit_flag st X true) _ _ out Hbar HY)).
    unfold ret, emit_flag. simpl. by rewrite append_assoc.
  - rewrite (bind_Ret _ _ _ _ _ (loop_body_plain st _ _ out Hbar HY)).
    rewrite (bind_Ret _ _ _ _ _ (loop_body_plain _ _ _ _ Hbaz HZ)).
    unfold ret, emit_flag. simpl. by rewrite !append_assoc, <- !(assoc_L (++)).
Qed.

End TokenLemmas.

Lemma adjacency_spacing_witness :
  for_elements "example" [Sample.spacing_toml] "../linux/v1/" Override_default
    ["_foo_"; "bar"] Sample.started []
  = (Ret (emit_flag Sample.started "XY" false), [])
  ∧ for_elements "example" [Sample.spacing_toml] "../linux/v1/" Override_default
      ["bar"; "baz"] Sample.started []
    = (Ret (emit_flag Sample.started " Y Z" false), []).
Proof.
  refine (adjacency_spacing "example" [Sample.spacing_toml] "../linux/v1/"
            Override_default Sample.started "_foo_" "foo" "bar" "baz"
            "X" "Y" "Z" [] _ _ _ _ _ _).
  - reflexivity.
  - reflexivity.
  - reflexivity.
  - intros out. reflexivity.
  - intros out. reflexivity.
  - intros out. reflexivity.
Defined.

(** With the adjacency flag set by the element before (here an assignment),
    the first of two plain elements attaches directly: [" K=Y Z "]. *)
Example plain_pair_after_assignment :
  generateCommand "example"
    [<["example" := <["exeCommand" := VArr ["K="; "bar"; "baz"]]>
                    (<["bar" := VStr "Y"]> (<["baz" := VStr "Z"]> ∅))]>
     Sample.bare_toml]
    "../linux/v1/" false Override_default []
  = (Ret " K=Y Z ", []).
Proof. reflexivity. Qed.

(** ** The override *)

Section OverrideLemmas.

Variables (command : string) (dict_list : list document) (source : string).

Lemma default_never_matches elem :
  String.eqb (element Override_default) elem && negb (String.eqb elem "")
  = false.
Proof.
  change (element Override_default) with "".
  rewrite String.eqb_sym. by destruct (String.eqb elem "").
Qed.

(** An element other than the key of the override is treated as without
    any override. *)
Lemma loop_body_not_key override st elem :
  elem ≠ element override →
  loop_body command dict_list source override st elem
  = loop_body command dict_list source Override_default st elem.
Proof.
  intros Hne. unfold loop_body. rewrite default_never_matches.
  assert (String.eqb (element override) elem = false) as ->; [|done].
  apply String.eqb_neq. congruence.
Qed.

(** C2 (as amended). Every occurrence of the key of the override among the
    elements is replaced by the replacement text, not one only: an element
    equal to the key adds that text whatever came before, so [n]
    occurrences add it [n] times; an element other than the key is treated
    as if there were no override. (The key is not empty and does not begin
    with a reserved marker: it reaches the test of the override.) *)
Theorem override_every_occurrence override :
  classify override (element override) = Overridden →
  (∀ st out,
      loop_body command dict_list source override st (element override) out
      = (Ret (emit st (arg override)), out))
  ∧ (∀ n st out,
      for_elements command dict_list source override
        (replicate n (element override)) st out
      = (Ret (Nat.iter n (λ st', emit st' (arg override)) st), out))
  ∧ (∀ st elem,
      elem ≠ element override →
      loop_body command dict_list source override st elem
      = loop_body command dict_list source Override_default st elem).
Proof.
  intros Hkey. split; [|split].
  - intros st out. by apply loop_body_overridden.
  - induction n as [|n IH]; intros st out; [done|].
    simpl. rewrite (bind_Ret _ _ _ _ _ (loop_body_overridden _ _ _ _ st _ out Hkey)).
    rewrite IH. f_equal. f_equal. clear IH.
    induction n as [|n IHn]; [done|]. simpl. by rewrite IHn.
  - intros st elem. apply loop_body_not_key.
Qed.

End OverrideLemmas.

Lemma override_every_occurrence_witness :
  for_elements "example" [Sample.twice_toml] "../linux/v1/"
    (Override_init "target:boot") ["target"; "target"; "target"]
    Sample.started []
  = (Ret (emit (emit (emit Sample.started " boot") " boot") " boot"), []).
Proof.
  pose proof (override_every_occurrence "example" [Sample.twice_toml]
                "../linux/v1/" (Override_init "target:boot")) as H.
  destruct H as (_ & H & _); [reflexivity|].
  exact (H 3 Sample.started []).
Defined.

(** C2, the statement of the specification fails: with [target] twice among the elements
    and the override [target:boot], both occurrences are replaced; the
    results with one replacement only, [" boot all "] or [" all boot "], are
    not what is returned. *)
Lemma override_replaces_twice :
  generateCommand "example" [Sample.twice_toml] "../linux/v1/" false
    Override_default []
  = (Ret " all all ", [])
  ∧ generateCommand "example" [Sample.twice_toml] "../linux/v1/" false
      (Override_init "target:boot") []
    = (Ret " boot boot ", [])
  ∧ generateCommand "example" [Sample.twice_toml] "../linux/v1/" false
      (Override_init "target:boot") []
    ≠ (Ret " boot all ", [])
  ∧ generateCommand "example" [Sample.twice_toml] "../linux/v1/" false
      (Override_init "target:boot") []
    ≠ (Ret " all boot ", []).
Proof. repeat split; try reflexivity; by vm_compute. Qed.

Lemma Override_init_no_separator option :
  PyStr.str_in ":" option = false →
  Override_init option = {| element := ""; arg := "" |}.
Proof. intros H. unfold Override_init. by rewrite H, andb_false_r. Qed.

Lemma empty_key_never_overridden arg0 elem :
  classify {| element := ""; arg := arg0 |} elem ≠ Overridden.
Proof.
  unfold classify. cbn [element].
  assert (String.eqb "" elem && negb (String.eqb elem "") = false) as ->.
  { rewrite String.eqb_sym. by destruct (String.eqb elem ""). }
  repeat match goal with
    | |- context [if ?c then _ else _] => destruct c
    | |- context [match ?o with Some _ => _ | None => _ end] => destruct o
    end; discriminate.
Qed.

(** C10. An override built from a string without the separator [:] (the
    empty string included) has an empty key and an empty replacement text;
    [generateCommand] with it is [generateCommand] with the default
    [Override()], on every input; and no element, the empty string
    included, ever takes the branch of the override. *)
Theorem malformed_override_is_identity option :
  PyStr.str_in ":" option = false →
  Override_init option = {| element := ""; arg := "" |}
  ∧ (∀ command dict_list source run_flash,
        generateCommand command dict_list source run_flash (Override_init option)
        = generateCommand command dict_list source run_flash Override_default)
  ∧ (∀ elem, classify (Override_init option) elem ≠ Overridden)
  ∧ (∀ command dict_list source st out,
        loop_body command dict_list source (Override_init option) st "" out
        = (Raise IndexError, out)).
Proof.
  intros H. rewrite (Override_init_no_separator _ H). repeat split.
  - intros elem. apply empty_key_never_overridden.
Qed.

Lemma malformed_override_is_identity_witness :
  Override_init "target boot" = {| element := ""; arg := "" |}
  ∧ generateCommand "example" [Sample.test_toml] "../linux/v1/" false
      (Override_init "target boot")
    = generateCommand "example" [Sample.test_toml] "../linux/v1/" false
        Override_default.
Proof.
  destruct (malformed_override_is_identity "target boot") as (H1 & H2 & _);
    [reflexivity|].
  split; [exact H1 | apply H2].
Defined.

(** An override with a separator replaces a key that is spelt in full in the
    command: spaces around the key and the value are dropped, and the
    replacement text starts with one space. *)
Example Override_init_strips :
  Override_init " target : boot " = {| element := "target"; arg := " boot" |}.
Proof. reflexivity. Qed.

(** ** The example of the file header *)

(** C1. For the table [example] of the header of the source (command
    [_make], [optimization], [target], [BUILD_PLAT=], [buildDir], with
    [optimization] empty, [target] "all" and [buildDir] "../build"), build
    mode and the source path "../linux/v1/": without override the result is
    the make command with two spaces before "all" and one space at the end,
    the number of jobs being written as the shell arithmetic
    "$(nproc) - 1", the number of cores less one; with the override
    [target:boot] the result is the same text with " boot" for " all".
    Nothing is printed. *)
Theorem example_command out :
  generateCommand "example" [Sample.test_toml] "../linux/v1/" false
    Override_default out
  = (Ret " make -j$(($(nproc) - 1)) -C ../linux/v1/  all BUILD_PLAT=../build ",
     out)
  ∧ generateCommand "example" [Sample.test_toml] "../linux/v1/" false
      (Override_init "target:boot") out
    = (Ret " make -j$(($(nproc) - 1)) -C ../linux/v1/  boot BUILD_PLAT=../build ",
       out).
Proof. split; reflexivity. Qed.

(** ** Determinism *)

Section Fixed.

Context {A B : Type}.

Lemma fixed_ret (a : A) : fixed (ret a).
Proof. exists (Ret a), []. intros out. unfold ret. by rewrite app_nil_r. Qed.

Lemma fixed_exit code : fixed (exit (A := A) code).
Proof. exists (Exit code), []. intros out. unfold exit. by rewrite app_nil_r. Qed.

Lemma fixed_raise e : fixed (raise (A := A) e).
Proof. exists (Raise e), []. intros out. unfold raise. by rewrite app_nil_r. Qed.

Lemma fixed_bind (m : M A) (k : A → M B) :
  fixed m → (∀ a, fixed (k a)) → fixed (bind m k).
Proof.
  intros (r & lines & Hm) Hk. destruct r as [a|c|e].
  - destruct (Hk a) as (r' & lines' & Hk').
    exists r', (lines ++ lines'). intros out. unfold bind.
    by rewrite Hm, Hk', (assoc_L (++)).
  - exists (Exit c), lines. intros out. unfold bind. by rewrite Hm.
  - exists (Raise e), lines. intros out. unfold bind. by rewrite Hm.
Qed.

End Fixed.

Lemma fixed_print line : fixed (print line).
Proof. by exists (Ret tt), [line]. Qed.

Lemma fixed_subscript {V} (dict : gmap string V) key : fixed (subscript dict key).
Proof.
  unfold subscript. destruct (dict !! key); [apply fixed_ret | apply fixed_raise].
Qed.

Lemma fixed_as_str v : fixed (as_str v).
Proof. destruct v; [apply fixed_ret | apply fixed_raise]. Qed.

(** Splits a goal [fixed m] along the structure of [m]. *)
Ltac fixed_steps :=
  repeat first
    [ apply fixed_ret | apply fixed_exit | apply fixed_raise
    | apply fixed_print | apply fixed_subscript | apply fixed_as_str
    | apply fixed_bind; [|intros ?]
    | match goal with
      | |- fixed (if ?c then _ else _) => destruct c
      | |- fixed (match ?o with Some _ => _ | None => _ end) => destruct o
      | |- fixed (match ?r with Zero => _ | Text _ => _ end) => destruct r
      end ].

Lemma fixed_lf_args elem command dict_list :
  fixed (lf_args elem command dict_list).
Proof. induction dict_list as [|d rest IH]; simpl; fixed_steps; apply IH. Qed.

Lemma fixed_checkCommand command dict_list :
  fixed (checkCommand command dict_list).
Proof. induction dict_list as [|d rest IH]; simpl; fixed_steps; apply IH. Qed.

Lemma fixed_find_run run command dict_list :
  fixed (find_run run command dict_list).
Proof. induction dict_list as [|d rest IH]; simpl; fixed_steps; apply IH. Qed.

Lemma fixed_loop_body command dict_list source override st elem :
  fixed (loop_body command dict_list source override st elem).
Proof. unfold loop_body. fixed_steps; apply fixed_lf_args. Qed.

Lemma fixed_for_elements command dict_list source override elems st :
  fixed (for_elements command dict_list source override elems st).
Proof.
  revert st. induction elems as [|e rest IH]; intros st; simpl; fixed_steps.
  - apply fixed_loop_body.
  - apply IH.
Qed.

(** The lines printed before a call have no influence on [generateCommand]:
    its outcome and the lines it adds are the same after any of them, and
    they are left as they were. *)
Lemma generateCommand_fixed command dict_list source run_flash
    override :
  ∃ (result : outcome string) (lines : list string),
    ∀ out,
      generateCommand command dict_list source run_flash override out
      = (result, out ++ lines).
Proof.
  unfold generateCommand. fixed_steps.
  - apply fixed_checkCommand.
  - apply fixed_find_run.
  - apply fixed_for_elements.
Qed.

(** ** Building the list of documents *)

Section LoadingLemmas.

Variable fs : file_system.

Lemma follow_includes_next fuel st (header : table) path d :
  toml_dict st !! "header" = Some header →
  header !! "include" = Some (VStr path) →
  fs !! path = Some (Parsed d) →
  follow_includes fs (S fuel) st
  = follow_includes fs fuel
      {| toml_dict := d; lst_toml_files := lst_toml_files st ++ [d];
         f_name := path |}.
Proof. intros Hh Hi Hp. simpl. by rewrite Hh, Hi, Hp. Qed.

(** More fuel does not change the result of a loop that has ended. *)
Lemma follow_includes_mono fuel : ∀ st m fuel',
  follow_includes fs fuel st = Some m → fuel ≤ fuel' →
  follow_includes fs fuel' st = Some m.
Proof.
  induction fuel as [|fuel IH]; intros st m fuel' H Hle; [discriminate|].
  destruct fuel' as [|fuel']; [lia|]. simpl in *.
  destruct (toml_dict st !! "header") as [header|]; [|done].
  destruct (header !! "include") as [[path|]|]; [|done..].
  destruct (fs !! path) as [[| |d]|]; [done..| |done].
  apply IH; [done | lia].
Qed.

(** A rank that goes down along the includes excludes cycles. *)
Lemma ranked_acyclic rank : ranked fs rank → acyclic fs.
Proof.
  intros Hrank p Hp.
  assert (∀ x y, tc (include_edge fs) x y → rank y < rank x) as Hlt.
  { induction 1 as [x y Hxy|x y z Hxy _ IH]; [by apply Hrank|].
    specialize (Hrank _ _ Hxy). lia. }
  specialize (Hlt _ _ Hp). lia.
Qed.

(** Without cycles the loop ends before it has tested its condition more
    often than there are files not yet visited, plus one. [visited] holds
    the files read so far, all of which lead to the current one. *)
Lemma follow_includes_acyclic :
  acyclic fs →
  ∀ fuel st (visited : gset string),
    fs !! f_name st = Some (Parsed (toml_dict st)) →
    (∀ v, v ∈ visited → rtc (include_edge fs) v (f_name st)) →
    size (dom fs ∖ visited) < fuel →
    is_Some (follow_includes fs fuel st).
Proof.
  intros Hacyclic. induction fuel as [|fuel IH]; intros st visited Hst Hreach Hlt;
    [lia|].
  simpl.
  destruct (toml_dict st !! "header") as [header|] eqn:Hh; [|done].
  destruct (header !! "include") as [[path|]|] eqn:Hi; [|done..].
  destruct (fs !! path) as [[| |d]|] eqn:Hp; [done..| |done].
  assert (include_edge fs (f_name st) path) as Hedge.
  { exists (toml_dict st), d. split_and!; [done| |done]. by exists header. }
  assert (path ∉ visited) as Hfresh.
  { intros Hin. apply (Hacyclic path).
    eapply tc_rtc_l; [by apply Hreach | by apply tc_once]. }
  apply (IH _ (visited ∪ {[path]})); simpl; [done| |].
  - intros v [Hv| ->%elem_of_singleton]%elem_of_union; [|done].
    eapply rtc_r; [by apply Hreach | done].
  - assert (dom fs ∖ (visited ∪ {[path]}) ⊂ dom fs ∖ visited) as Hsub; [|
      apply subset_size in Hsub; lia].
    assert (path ∈ dom fs) as Hdom by (apply elem_of_dom; eauto).
    set_solver.
Qed.

Lemma load_input_Ret inputFile d out out' :
  load_input fs inputFile out = (Ret d, out') →
  fs !! inputFile = Some (Parsed d) ∧ out' = out.
Proof.
  unfold load_input. destruct (fs !! inputFile) as [[| |d']|]; try discriminate.
  unfold ret. by intros [= -> ->].
Qed.

(** C3 (as amended). Building the list of documents ends on every file
    system whose includes form no cycle: the result (a list of documents, an
    exit or an exception) is there as soon as the loop may test its
    condition once per file, and more tests do not change it. *)
Theorem load_documents_terminates inputFile out :
  acyclic fs →
  ∃ result,
    ∀ fuel, size fs ≤ fuel →
      load_documents fs fuel inputFile out = Some result.
Proof.
  intros Hacyclic. unfold load_documents.
  destruct ((d <~ load_input fs inputFile; check_input d;, ret d) out)
    as [[d| |] out'] eqn:Hroot; [|by eauto..].
  assert (fs !! inputFile = Some (Parsed d)) as Hd.
  { unfold bind in Hroot.
    destruct (load_input fs inputFile out) as [[d0| |] out0] eqn:Hl;
      [|discriminate..].
    apply load_input_Ret in Hl as [Hl ->].
    destruct (check_input d0 out) as [[[]| |] out1]; [|discriminate..].
    unfold ret in Hroot. by injection Hroot as -> _. }
  destruct (follow_includes_acyclic Hacyclic (size fs)
              {| toml_dict := d; lst_toml_files := [d]; f_name := inputFile |}
              {[ inputFile ]})
    as [m Hm]; [done | by intros v ->%elem_of_singleton | |].
  { rewrite <- (size_dom (D := gset string)). apply subset_size.
    assert (inputFile ∈ dom fs) as Hdom by (apply elem_of_dom; eauto).
    set_solver. }
  exists (m out'). intros fuel Hle.
  by rewrite (follow_includes_mono _ _ m fuel Hm).
Qed.

(** C4 (as amended). When the file given on the command line holds a table
    [all], loading prints one line and exits with -1 before any include is
    read. The line is the one about [all] when that file has a header with
    a name, the one about the missing name when its header has no name, and
    the one about the missing header when it has no header. The files
    reached through includes are not tested. *)
Theorem reserved_all_in_input fuel inputFile (d : document) out :
  fs !! inputFile = Some (Parsed d) →
  is_Some (d !! "all") →
  ∃ line,
    load_documents fs fuel inputFile out = Some (Exit (-1), out ++ [line])
    ∧ (∀ header : table,
          d !! "header" = Some header → is_Some (header !! "name") →
          line = "Error 'all' can't be used as a table.")
    ∧ (∀ header : table,
          d !! "header" = Some header → header !! "name" = None →
          line = "Error: header needs a 'name' key.")
    ∧ (d !! "header" = None →
          line = "Error: header not found in TOML file.").
Proof.
  intros Hd [t Hall]. unfold load_documents, load_input, check_input, bind.
  rewrite Hd. simpl. rewrite Hall.
  destruct (d !! "header") as [header|]; simpl.
  - destruct (header !! "name") as [name|] eqn:Hn; simpl.
    + eexists. split; [done|]. split_and!; [done| |done].
      intros h [= <-]. congruence.
    + eexists. split; [done|]. split_and!; [|done|done].
      intros h [= <-] [? ?]. congruence.
  - eexists. split; [done|].
    split_and!; [by intros h [=] | by intros h [=] | done].
Qed.

End LoadingLemmas.

Lemma layers_ranked : ranked Sample.layers Sample.layers_rank.
Proof.
  intros p q (d & d' & Hp & (header & Hh & Hi) & Hq). unfold Sample.layers in *.
  rewrite !lookup_insert in Hp. rewrite !lookup_insert in Hq.
  repeat case_decide; simplify_eq; try done;
    unfold Sample.layers_rank; simpl; try lia;
    vm_compute in Hh; simplify_eq; vm_compute in Hi; simplify_eq.
Qed.

Lemma load_documents_terminates_witness :
  ∃ result,
    (∀ fuel, size Sample.layers ≤ fuel →
       load_documents Sample.layers fuel "custom.toml" [] = Some result)
    ∧ result
      = (Ret [Sample.custom_toml; Sample.layer_toml; Sample.test_toml], []).
Proof.
  destruct (load_documents_terminates Sample.layers "custom.toml" []
              (ranked_acyclic _ _ layers_ranked)) as [result H].
  exists result. split; [exact H|].
  specialize (H 3 (le_n 3)). by injection H as <-.
Defined.

(** On the two files that include each other the loop is still running after
    any number of tests, each one having added a document to the list. *)
Lemma cycle_runs fuel : ∀ st,
  toml_dict st = Sample.a_toml ∨ toml_dict st = Sample.b_toml →
  follow_includes Sample.cycle fuel st = None.
Proof.
  induction fuel as [|fuel IH]; intros st H; [done|].
  destruct H as [H|H].
  - rewrite (follow_includes_next _ _ _
               (Sample.header_including "a" "b.toml") "b.toml" Sample.b_toml);
      [|by rewrite H|done|done].
    apply IH. by right.
  - rewrite (follow_includes_next _ _ _
               (Sample.header_including "b" "a.toml") "a.toml" Sample.a_toml);
      [|by rewrite H|done|done].
    apply IH. by left.
Qed.

(** C3, the statement of the specification fails: with [a.toml] including [b.toml] and
    [b.toml] including [a.toml], no number of tests of the loop brings a
    result, error or list: the includes are followed for ever. *)
Lemma include_cycle_never_ends :
  ¬ ∃ fuel result,
      load_documents Sample.cycle fuel "a.toml" [] = Some result.
Proof.
  intros (fuel & result & H). unfold load_documents in H.
  change ((d <~ load_input Sample.cycle "a.toml"; check_input d;, ret d) [])
    with (Ret Sample.a_toml, @nil string) in H.
  cbv beta iota in H. rewrite cycle_runs in H; [discriminate | by left].
Qed.

Lemma reserved_all_in_input_witness :
  load_documents Sample.reserved_root 5 "reserved.toml" []
  = Some (Exit (-1), ["Error 'all' can't be used as a table."]).
Proof.
  destruct (reserved_all_in_input Sample.reserved_root 5 "reserved.toml"
              Sample.reserved_toml [])
    as (line & H & Hline & _); [reflexivity | by eexists |].
  rewrite H, (Hline Sample.header); [reflexivity | reflexivity | by eexists].
Defined.

(** C4, the statement of the specification fails: [root.toml] includes [base.toml], which
    holds a table [all]; loading returns the two documents, and [main] goes
    on to choose the source and to build and print the command of [example]
    from them. *)
Lemma reserved_all_in_include :
  is_Some (Sample.base_toml !! "all")
  ∧ load_documents Sample.reserved_include 2 "root.toml" []
    = Some (Ret [Sample.root_toml; Sample.base_toml], [])
  ∧ choose_source (λ _, true)
      {| a_command := "example"; a_source := Some "../linux/v1";
         a_inputFile := "root.toml"; a_flash := false; a_override := None |}
      [Sample.root_toml; Sample.base_toml] []
    = (Ret "../linux/v1/", [])
  ∧ (λ m : M string, m []) <$>
      run_command "example" [Sample.root_toml; Sample.base_toml]
        "../linux/v1/" false None
    = Some
        (Ret " make -j$(($(nproc) - 1)) -C ../linux/v1/  boot BUILD_PLAT=../build ",
         [""; " make -j$(($(nproc) - 1)) -C ../linux/v1/  boot BUILD_PLAT=../build "]).
Proof. split; [by eexists | split_and!; reflexivity]. Qed.

(** ** What main establishes before it builds a command *)

Lemma unsupported_Ret cmd (lst : list document) filename out r out' :
  unsupported cmd lst filename out = (Ret r, out') →
  r = None → filename = None ∧ Forall (λ d : document, is_Some (d !! cmd)) lst.
Proof.
  revert filename out. induction lst as [|d rest IH]; intros filename out H Hr.
  - simpl in H. unfold ret in H. split; [congruence | constructor].
  - simpl in H. destruct (d !! cmd) as [t|] eqn:Ht.
    + destruct (IH _ _ H Hr) as [-> Hrest]. split; [done|].
      constructor; [by exists t | done].
    + unfold bind, subscript in H.
      destruct (d !! "header") as [hd|]; [|discriminate].
      simpl in H. destruct (hd !! "name") as [nm|]; [|discriminate].
      simpl in H. by destruct (IH _ _ H Hr) as [? _].
Qed.

(** [main] hands to [generateCommand] only lists in which every document has
    a table for the command: the loop over the documents that precedes
    [checkCommand] leaves the program otherwise. *)
Lemma main_guard cmd (lst : list document) out out' :
  unsupported cmd lst None out = (Ret None, out') →
  Forall (λ d : document, is_Some (d !! cmd)) lst.
Proof. intros H. by destruct (unsupported_Ret _ _ _ _ _ _ H). Qed.

(** * Further properties of the code *)

(** ** Strings *)

Lemma prefix_append (s1 s2 : string) : String.prefix s1 (s1 +:+ s2) = true.
Proof.
  induction s1 as [|c s1 IH]; [by destruct s2|].
  change (String.prefix (String c s1) (String c (s1 +:+ s2)) = true).
  simpl. destruct (ascii_dec c c); [done | congruence].
Qed.

Lemma str_in_prefix (needle hay : string) :
  String.prefix needle hay = true → PyStr.str_in needle hay = true.
Proof. intros H. destruct hay; cbn [PyStr.str_in]; by rewrite H. Qed.

Lemma str_in_append (s1 needle s2 : string) :
  PyStr.str_in needle (s1 +:+ needle +:+ s2) = true.
Proof.
  induction s1 as [|c s1 IH].
  - apply str_in_prefix, (prefix_append needle s2).
  - change (PyStr.str_in needle (String c (s1 +:+ needle +:+ s2)) = true).
    simpl. rewrite IH. apply orb_true_r.
Qed.

Lemma index_of_append c (s1 s2 : string) :
  PyStr.index_of c s1 = None →
  PyStr.index_of c (s1 +:+ String c s2) = Some (String.length s1).
Proof.
  induction s1 as [|a s1 IH]; intros H.
  - change (PyStr.index_of c (String c s2) = Some 0). simpl.
    by rewrite Ascii.eqb_refl.
  - change (PyStr.index_of c (String a (s1 +:+ String c s2))
            = Some (S (String.length s1))).
    simpl in *. destruct (Ascii.eqb a c); [done|].
    destruct (PyStr.index_of c s1); [done|]. by rewrite IH.
Qed.

Lemma substring_skip (s1 s2 : string) n m :
  substring (String.length s1 + n) m (s1 +:+ s2) = substring n m s2.
Proof.
  induction s1 as [|a s1 IH]; [done|].
  change (substring (S (String.length s1 + n)) m (String a (s1 +:+ s2))
          = substring n m s2).
  simpl. apply IH.
Qed.

Lemma substring_all (s : string) : substring 0 (String.length s) s = s.
Proof. induction s as [|a s IH]; [done|]. simpl. by rewrite IH. Qed.

(** ** The override, continued *)

(** X1. An override text is cut at its first colon: what stands before it,
    without the spaces around, is the key; what stands after it, further
    colons included, without the spaces around and with one space in front,
    is the replacement text. *)
Theorem Override_init_first_colon key text :
  PyStr.index_of ":" key = None →
  Override_init (key +:+ ":" +:+ text)
  = {| element := PyStr.strip key; arg := " " +:+ PyStr.strip text |}.
Proof.
  intros Hkey. unfold Override_init.
  assert (String.eqb (key +:+ ":" +:+ text) "" = false) as ->.
  { by destruct key. }
  rewrite (str_in_append key ":" text). cbn [negb andb].
  change (key +:+ ":" +:+ text) with (key +:+ String ":" text).
  rewrite (index_of_append _ _ _ Hkey). unfold PyStr.slice. f_equal.
  - by rewrite Nat.sub_0_r, substring_append.
  - f_equal. f_equal. rewrite length_append. cbn [String.length].
    replace (String.length key + S (String.length text) - (String.length key + 1))
      with (String.length text) by lia.
    rewrite substring_skip. simpl. apply substring_all.
Qed.

Lemma Override_init_first_colon_witness :
  Override_init " PATH : /opt/sdk:/usr/bin "
  = {| element := "PATH"; arg := " /opt/sdk:/usr/bin" |}.
Proof.
  exact (Override_init_first_colon " PATH " " /opt/sdk:/usr/bin " eq_refl).
Defined.

Section Extensionality.

Variables (command : string) (dict_list : list document) (source : string)
          (override override' : Override).

Hypothesis same_body : ∀ st elem out,
  loop_body command dict_list source override st elem out
  = loop_body command dict_list source override' st elem out.

Lemma for_elements_ext elems : ∀ st out,
  for_elements command dict_list source override elems st out
  = for_elements command dict_list source override' elems st out.
Proof.
  induction elems as [|e rest IH]; intros st out; [done|].
  simpl. unfold bind. rewrite same_body.
  destruct (loop_body command dict_list source override' st e out)
    as [[st'| |] out']; [apply IH | done..].
Qed.

Lemma generateCommand_ext run_flash out :
  generateCommand command dict_list source run_flash override out
  = generateCommand command dict_list source run_flash override' out.
Proof.
  unfold generateCommand, bind.
  destruct (checkCommand command dict_list out) as [[[|msg]| |] out1]; [|done..].
  destruct (find_run _ command dict_list out1) as [[[exe|]| |] out2]; [|done..].
  by rewrite for_elements_ext.
Qed.

End Extensionality.

Lemma loop_body_ineffective command dict_list source override st elem out :
  classify override (element override) ≠ Overridden →
  loop_body command dict_list source override st elem out
  = loop_body command dict_list source Override_default st elem out.
Proof.
  intros Hkey. destruct (decide (elem = element override)) as [->|Hne];
    [|by rewrite loop_body_not_key].
  unfold classify in Hkey. unfold loop_body.
  rewrite default_never_matches.
  repeat match goal with
    | |- context [if ?c then _ else _] => destruct c eqn:?; try done
    end.
Qed.

(** X2. An override whose key is empty, or begins with one of the reserved
    markers [_make], [_cmake] and [_src_], changes nothing: the key never
    reaches the test of the override, and [generateCommand] behaves as
    without override. *)
Theorem override_without_effect command dict_list source run_flash override out :
  classify override (element override) ≠ Overridden →
  generateCommand command dict_list source run_flash override out
  = generateCommand command dict_list source run_flash Override_default out.
Proof.
  intros Hkey. apply generateCommand_ext. intros st elem out'.
  by apply loop_body_ineffective.
Qed.

Lemma override_without_effect_witness :
  generateCommand "example" [Sample.test_toml] "../linux/v1/" false
    (Override_init "_make:gmake") []
  = generateCommand "example" [Sample.test_toml] "../linux/v1/" false
      Override_default []
  ∧ generateCommand "example" [Sample.test_toml] "../linux/v1/" false
      (Override_init "  :boot") []
    = generateCommand "example" [Sample.test_toml] "../linux/v1/" false
        Override_default [].
Proof.
  split.
  - apply (override_without_effect "example" [Sample.test_toml] "../linux/v1/"
             false (Override_init "_make:gmake") []).
    discriminate.
  - apply (override_without_effect "example" [Sample.test_toml] "../linux/v1/"
             false (Override_init "  :boot") []).
    discriminate.
Defined.

Lemma Override_init_arg option :
  element (Override_init option) ≠ "" →
  ∃ text, arg (Override_init option) = " " +:+ text.
Proof.
  unfold Override_init.
  destruct (negb (String.eqb option "") && PyStr.str_in ":" option); [|done].
  destruct (PyStr.index_of ":" option); [|done]. intros _. by eexists.
Qed.

(** X3. The replacement text of an override always begins with a space, and
    the element it replaces leaves the adjacency flag as it was. After an
    assignment element [K=] the replaced value is therefore written
    [K= value], with a space, and the flag set by [K=] is passed on: the
    plain element that follows is attached without a space. *)
Theorem override_after_assignment command dict_list source option st
    asg nxt Y out :
  let override := Override_init option in
  classify override asg = Assignment →
  classify override (element override) = Overridden →
  classify override nxt = Plain →
  resolves command dict_list nxt Y →
  ∃ text,
    arg override = " " +:+ text
    ∧ for_elements command dict_list source override
        [asg; element override; nxt] st out
      = (Ret (emit_flag st (" " +:+ asg +:+ " " +:+ text +:+ Y) false),
         out ++ warnings nxt).
Proof.
  intros override Hasg Hkey Hnxt HY. subst override.
  destruct (Override_init_arg option) as [text Htext].
  { intros Hempty.
    destruct (Override_init option) as [k a]. simpl in Hempty. subst k.
    by apply (empty_key_never_overridden a "") in Hkey. }
  exists text. split; [done|]. cbn [for_elements].
  rewrite (bind_Ret _ _ _ _ _ (loop_body_assignment _ _ _ _ st _ out Hasg)).
  rewrite (bind_Ret _ _ _ _ _ (loop_body_overridden _ _ _ _ _ _ out Hkey)).
  rewrite (bind_Ret _ _ _ _ _ (loop_body_plain _ _ _ _ _ _ _ out Hnxt HY)).
  unfold ret, emit_flag, emit. cbn [commands_to_run next_no_space first_cmd].
  rewrite Htext. by rewrite !append_assoc.
Qed.

Lemma override_after_assignment_witness :
  ∃ text,
    arg (Override_init "buildDir:/tmp/out") = " " +:+ text
    ∧ for_elements "example"
        [<["example" := <["flags" := VStr "-k"]> Sample.example]> Sample.test_toml]
        "../linux/v1/" (Override_init "buildDir:/tmp/out")
        ["BUILD_PLAT="; "buildDir"; "flags"] Sample.started []
      = (Ret (emit_flag Sample.started (" BUILD_PLAT= /tmp/out-k") false), []).
Proof.
  destruct (override_after_assignment "example"
              [<["example" := <["flags" := VStr "-k"]> Sample.example]>
               Sample.test_toml]
              "../linux/v1/" "buildDir:/tmp/out" Sample.started
              "BUILD_PLAT=" "flags" "-k" [])
    as (text & Harg & Hrun); [reflexivity.. | by intros out |].
  exists text. split; [exact Harg|].
  assert (text = "/tmp/out") as Htext by (by injection Harg).
  rewrite Htext in Hrun. exact Hrun.
Defined.

(** ** Key resolution and the status gate, continued *)

(** X4. [lf_args] ends in one of three ways, decided by the documents up to
    the first one that defines the key or has no table for the command: it
    returns the value of the first document that defines the key, printing
    nothing; or every document has the table and none defines the key, and
    it prints its message and leaves the program with -1; or a document
    without the table is met first, and it raises KeyError. *)
Theorem lf_args_cases elem command (dict_list : list document) out :
  (∃ pre d (t : table) v post,
      dict_list = pre ++ d :: post
      ∧ Forall (table_without command elem) pre
      ∧ d !! command = Some t ∧ t !! elem = Some v
      ∧ lf_args elem command dict_list out = (Ret v, out))
  ∨ (Forall (table_without command elem) dict_list
     ∧ lf_args elem command dict_list out
       = (Exit (-1),
          out ++ ["Error: element '" +:+ elem +:+ "' not found in any TOML files."]))
  ∨ (∃ pre d post,
      dict_list = pre ++ d :: post
      ∧ Forall (table_without command elem) pre
      ∧ d !! command = None
      ∧ lf_args elem command dict_list out = (Raise (KeyError command), out)).
Proof.
  induction dict_list as [|d rest IH].
  - right; left. split; [constructor | done].
  - destruct (d !! command) as [t|] eqn:Ht.
    + destruct (t !! elem) as [v|] eqn:Hv.
      * left. exists [], d, t, v, rest. split_and!; try done.
        by apply (lf_args_here _ _ _ t).
      * assert (table_without command elem d) as Hd by (by exists t).
        assert (∀ o, lf_args elem command (d :: rest) o = lf_args elem command rest o)
          as Hskip.
        { intros o. apply (lf_args_skip _ _ [d] rest). by constructor. }
        destruct IH as [(pre & d' & t' & v & post & -> & Hpre & Ht' & Hv' & Hr)
                       |[(Hall & Hr)|(pre & d' & post & -> & Hpre & Ht' & Hr)]].
        -- left. exists (d :: pre), d', t', v, post.
           split_and!; try done; [by constructor | by rewrite Hskip].
        -- right; left. split; [by constructor | by rewrite Hskip].
        -- right; right. exists (d :: pre), d', post.
           split_and!; try done; [by constructor | by rewrite Hskip].
    + right; right. exists [], d, rest. split_and!; try done.
      by apply lf_args_no_table.
Qed.

(** X5. [checkCommand] returns 0 exactly when every document has a table for
    the command and none of these tables carries a status; it never prints. *)
Theorem checkCommand_zero_iff command (dict_list : list document) out out' :
  checkCommand command dict_list out = (Ret Zero, out')
  ↔ Forall (table_without command "status") dict_list ∧ out' = out.
Proof.
  split.
  - intros H. split; [by eapply checkCommand_zero_inv|].
    apply checkCommand_zero_inv in H as Hall.
    rewrite checkCommand_zero in H by done. congruence.
  - intros [Hall ->]. by apply checkCommand_zero.
Qed.

Lemma checkCommand_text_inv command (dict_list : list document) out msg out' :
  checkCommand command dict_list out = (Ret (Text msg), out') →
  out' = out
  ∧ ∃ pre d (t : table) status name post,
      dict_list = pre ++ d :: post
      ∧ Forall (table_without command "status") pre
      ∧ d !! command = Some t ∧ t !! "status" = Some (VStr status)
      ∧ named d name
      ∧ msg = "Error: received the status: '" +:+ status
              +:+ "' from the TOML file:" +:+ name.
Proof.
  revert out. induction dict_list as [|d rest IH]; intros out H; [discriminate|].
  simpl in H. unfold bind, subscript in H.
  destruct (d !! command) as [t|] eqn:Ht; [|discriminate].
  simpl in H. destruct (t !! "status") as [st|] eqn:Hs.
  - destruct st as [status|]; simpl in H; [|discriminate].
    destruct (d !! "header") as [hd|] eqn:Hh; simpl in H; [|discriminate].
    destruct (hd !! "name") as [[name|?]|] eqn:Hn; simpl in H; try discriminate.
    unfold ret in H. injection H as <- <-. split; [done|].
    exists [], d, t, status, name, rest. split_and!; try done. by exists hd.
  - destruct (IH _ H) as (-> & pre & d' & t' & status & name & post
                          & -> & Hpre & Hrest).
    split; [done|]. exists (d :: pre), d', t', status, name, post.
    split; [done|]. split; [|done]. constructor; [by exists t | done].
Qed.

(** X6. Every text that [checkCommand] returns instead of 0 comes from the
    first document whose table for the command carries a status: it names
    that status and the name of that document, and it begins with the five
    characters by which [main] recognises an error. Nothing is printed. *)
Theorem checkCommand_text command (dict_list : list document) out msg out' :
  checkCommand command dict_list out = (Ret (Text msg), out') →
  out' = out
  ∧ PyStr.slice 0 5 msg = "Error"
  ∧ ∃ pre d (t : table) status name post,
      dict_list = pre ++ d :: post
      ∧ Forall (table_without command "status") pre
      ∧ d !! command = Some t ∧ t !! "status" = Some (VStr status)
      ∧ named d name
      ∧ msg = "Error: received the status: '" +:+ status
              +:+ "' from the TOML file:" +:+ name.
Proof.
  intros H. destruct (checkCommand_text_inv _ _ _ _ _ H) as (-> & Hinv).
  split; [done|]. split; [|done].
  by destruct Hinv as (? & ? & ? & ? & ? & ? & _ & _ & _ & _ & _ & ->).
Qed.

Lemma checkCommand_text_witness :
  @nil string = []
  ∧ PyStr.slice 0 5 "Error: received the status: 'disabled' from the TOML file:base"
    = "Error"
  ∧ ∃ pre d (t : table) status name post,
      [Sample.board_toml; Sample.disabled_toml] = pre ++ d :: post
      ∧ Forall (table_without "example" "status") pre
      ∧ d !! "example" = Some t ∧ t !! "status" = Some (VStr status)
      ∧ named d name
      ∧ "Error: received the status: 'disabled' from the TOML file:base"
        = "Error: received the status: '" +:+ status
          +:+ "' from the TOML file:" +:+ name.
Proof.
  exact (checkCommand_text "example" [Sample.board_toml; Sample.disabled_toml]
           [] "Error: received the status: 'disabled' from the TOML file:base" []
           eq_refl).
Defined.

(** ** The token loop, continued *)

Lemma begins_with_space_append (s1 s2 : string) :
  begins_with_space s1 → begins_with_space (s1 +:+ s2).
Proof. unfold begins_with_space. destruct s1 as [|c s1]; [done|]. by intros [= ->]. Qed.

Lemma begins_with_space_not_error (text : string) :
  begins_with_space text → PyStr.slice 0 5 text ≠ "Error".
Proof.
  unfold begins_with_space. destruct text as [|c text]; [done|].
  intros [= ->]. unfold PyStr.slice. simpl. discriminate.
Qed.

Section Growth.

Variables (command : string) (dict_list : list document) (source : string)
          (override : Override).

(** One element only adds to the text, and never sets [first_cmd] again. *)
Lemma loop_body_grows st elem out st' out' :
  loop_body command dict_list source override st elem out = (Ret st', out') →
  (∃ suffix, commands_to_run st' = commands_to_run st +:+ suffix)
  ∧ (first_cmd st = false → first_cmd st' = false).
Proof.
  unfold loop_body, bind, ret, raise.
  repeat match goal with
    | |- context [if ?c then _ else _] => destruct c eqn:?
    | |- context [match ?o with Some _ => _ | None => _ end] => destruct o eqn:?
    | |- context [let (_, _) := ?m in _] => destruct m as [[?| |] ?] eqn:?
    | |- context [match ?v with VStr _ => _ | VArr _ => _ end] => destruct v
    end; simpl; try discriminate; intros [= <- <-]; simpl;
    (split; [|done]); rewrite ?append_assoc; try by eexists.
  all: try by (exists ""; induction (commands_to_run st); simpl; f_equal).
Qed.

Lemma for_elements_grows elems : ∀ st out st' out',
  for_elements command dict_list source override elems st out = (Ret st', out') →
  (∃ suffix, commands_to_run st' = commands_to_run st +:+ suffix)
  ∧ (first_cmd st = false → first_cmd st' = false).
Proof.
  induction elems as [|e rest IH]; intros st out st' out' H.
  - injection H as <- <-. split; [|done]. exists "".
    induction (commands_to_run st) as [|c s IHs]; [done|].
    change (String c s = String c (s +:+ "")). by f_equal.
  - simpl in H. unfold bind in H.
    destruct (loop_body command dict_list source override st e out)
      as [[st1| |] out1] eqn:H1; [|discriminate..].
    destruct (loop_body_grows _ _ _ _ _ H1) as [[s1 Hs1] Hf1].
    destruct (IH _ _ _ _ H) as [[s2 Hs2] Hf2].
    split; [|by auto]. exists (s1 +:+ s2). by rewrite Hs2, Hs1, append_assoc.
Qed.

End Growth.

(** X7. The loop over the elements only ever adds to the text built so far
    and to the lines printed so far, and once a build or configure tool has
    been written [first_cmd] stays false: no element erases what an earlier
    one produced. *)
Theorem for_elements_only_appends command dict_list source override elems
    st out st' out' :
  for_elements command dict_list source override elems st out = (Ret st', out') →
  (∃ suffix, commands_to_run st' = commands_to_run st +:+ suffix)
  ∧ (∃ lines, out' = out ++ lines)
  ∧ (first_cmd st = false → first_cmd st' = false).
Proof.
  intros H. destruct (for_elements_grows _ _ _ _ _ _ _ _ _ H) as [Hs Hf].
  split; [done|]. split; [|done].
  destruct (fixed_for_elements command dict_list source override elems st)
    as (r & lines & Hfixed).
  exists lines. rewrite Hfixed in H. congruence.
Qed.

Lemma for_elements_only_appends_witness :
  (∃ suffix, " make -C=../linux/v1/all" = " make" +:+ suffix)
  ∧ (∃ lines, @nil string = [] ++ lines)
  ∧ (false = false → false = false).
Proof.
  exact (for_elements_only_appends "example" [Sample.test_toml] "../linux/v1/"
           Override_default ["-C="; "_src_"; "target"] Sample.started []
           {| commands_to_run := " make -C=../linux/v1/all";
              next_no_space := false; first_cmd := false |} [] eq_refl).
Defined.

(** The local variables at the start of the loop. *)
Lemma loop_body_first command dict_list source override elem out st1 out1 :
  loop_body command dict_list source override
    {| commands_to_run := ""; next_no_space := false; first_cmd := true |}
    elem out = (Ret st1, out1) →
  (∀ inner, classify override elem ≠ AdjacencyKey inner) →
  (classify override elem = Overridden → begins_with_space (arg override)) →
  begins_with_space (commands_to_run st1).
Proof.
  unfold classify, loop_body, bind, ret, raise. cbn [commands_to_run next_no_space first_cmd].
  repeat match goal with
    | |- context [if ?c then _ else _] => destruct c eqn:?
    | |- context [match ?o with Some _ => _ | None => _ end] => destruct o eqn:?
    | |- context [let (_, _) := ?m in _] => destruct m as [[?| |] ?] eqn:?
    | |- context [match ?v with VStr _ => _ | VArr _ => _ end] => destruct v
    end; simpl; try discriminate; intros [= <- <-] Hadj Hov; try done.
  all: try by destruct (Hadj _ eq_refl).
  all: by apply Hov.
Qed.

(** X8. A command that [generateCommand] builds begins with a space, and so
    is never taken for an error by the test [command[:5] == "Error"] of
    [main], unless its first element is an adjacency key [_key_] (whose
    value is written without a space in front) or is replaced by an
    override text that does not begin with a space. An empty list of
    elements gives the command made of one space. *)
Theorem command_begins_with_space command dict_list source run_flash override
    exe_command text out out' :
  checkCommand command dict_list out = (Ret Zero, out) →
  find_run (run_key run_flash) command dict_list out = (Ret (Some exe_command), out) →
  (∀ elem rest, elements_of exe_command = elem :: rest →
     (∀ inner, classify override elem ≠ AdjacencyKey inner)
     ∧ (classify override elem = Overridden → begins_with_space (arg override))) →
  generateCommand command dict_list source run_flash override out = (Ret text, out') →
  begins_with_space text ∧ PyStr.slice 0 5 text ≠ "Error".
Proof.
  intros Hcheck Hrun Hfirst H.
  assert (begins_with_space text) as Hsp; [|by auto using begins_with_space_not_error].
  unfold generateCommand in H.
  rewrite (bind_Ret _ _ _ _ _ Hcheck) in H. fold (run_key run_flash) in H.
  rewrite (bind_Ret _ _ _ _ _ Hrun) in H. unfold bind, ret in H.
  destruct (for_elements _ _ _ _ _ _ out) as [[st| |] out1] eqn:Hloop;
    [|discriminate..].
  injection H as <- <-.
  destruct (elements_of exe_command) as [|elem rest] eqn:Helems.
  - by injection Hloop as <- <-.
  - destruct (Hfirst _ _ eq_refl) as [Hadj Hov].
    simpl in Hloop. unfold bind in Hloop.
    destruct (loop_body _ _ _ _ _ elem out) as [[st1| |] out2] eqn:Hbody;
      [|discriminate..].
    apply loop_body_first in Hbody; [|done..].
    destruct (for_elements_grows _ _ _ _ _ _ _ _ _ Hloop) as [[suffix ->] _].
    by do 2 apply begins_with_space_append.
Qed.

Lemma command_begins_with_space_witness :
  begins_with_space
    " make -j$(($(nproc) - 1)) -C ../linux/v1/  all BUILD_PLAT=../build "
  ∧ PyStr.slice 0 5
      " make -j$(($(nproc) - 1)) -C ../linux/v1/  all BUILD_PLAT=../build "
    ≠ "Error".
Proof.
  apply (command_begins_with_space "example" [Sample.test_toml] "../linux/v1/"
           false Override_default
           (VArr ["_make"; "optimization"; "target"; "BUILD_PLAT="; "buildDir"])
           _ [] []); [reflexivity | reflexivity | | reflexivity].
  intros elem rest [= <- <-]. split; [intros inner|]; discriminate.
Defined.

(** With an adjacency key first, the value is written as it is: a command
    may then begin with the text by which [main] recognises an error. *)
Example command_taken_for_error :
  generateCommand "example"
    [<["example" := <["exeCommand" := VArr ["_tool_"; "target"]]>
                    (<["tool" := VStr "ErrorProne"]> (<["target" := VStr "all"]> ∅))]>
     Sample.bare_toml]
    "../linux/v1/" false Override_default []
  = (Ret "ErrorProneall ", []).
Proof. reflexivity. Qed.

Section Tools.

Variables (command : string) (dict_list : list document) (source : string)
          (override : Override).

Lemma loop_body_tool st tool text out :
  invocation override source tool = Some text →
  loop_body command dict_list source override st tool out
  = (Ret {| commands_to_run :=
              (if first_cmd st then commands_to_run st
               else commands_to_run st +:+ ";") +:+ text;
            next_no_space := next_no_space st;
            first_cmd := false |}, out).
Proof.
  unfold invocation. intros H.
  destruct (classify override tool) eqn:Hkind; try discriminate;
    injection H as <-.
  - by apply loop_body_build_tool.
  - by apply loop_body_configure_tool.
Qed.

(** X10. An empty string among the elements stops the loop with IndexError
    as soon as it is reached, whatever follows it. *)
Theorem empty_element_raises pre post st st1 out out1 :
  for_elements command dict_list source override pre st out = (Ret st1, out1) →
  for_elements command dict_list source override (pre ++ "" :: post) st out
  = (Raise IndexError, out1).
Proof.
  intros Hpre. rewrite for_elements_app, (bind_Ret _ _ _ _ _ Hpre). simpl.
  by rewrite (bind_Raise _ _ _ _ _ (loop_body_no_character _ _ _ _ st1 out1)).
Qed.

Lemma loop_body_plain_unresolved st elem out :
  classify override elem = Plain →
  Forall (table_without command elem) dict_list →
  loop_body command dict_list source override st elem out
  = (Exit (-1),
     out ++ warnings elem
     ++ ["Error: element '" +:+ elem +:+ "' not found in any TOML files."]).
Proof.
  intros H Hall. unfold classify in H. unfold loop_body, warnings.
  repeat match type of H with
    | (if ?c then _ else _) = _ => destruct c eqn:?; try discriminate H
    | match ?o with Some _ => _ | None => _ end = _ =>
        destruct o eqn:?; try discriminate H
    end.
  unfold bind at 1. destruct (PyStr.str_in "_" elem); simpl.
  - rewrite (bind_Exit _ _ _ _ _ (lf_args_unresolved _ _ _ _ Hall)).
    by rewrite <- (assoc_L (++)).
  - by rewrite (bind_Exit _ _ _ _ _ (lf_args_unresolved _ _ _ _ Hall)).
Qed.

Lemma loop_body_adjacency_unresolved st elem key out :
  classify override elem = AdjacencyKey key →
  Forall (table_without command key) dict_list →
  loop_body command dict_list source override st elem out
  = (Exit (-1),
     out ++ ["Error: element '" +:+ key +:+ "' not found in any TOML files."]).
Proof.
  intros H Hall. unfold classify in H. unfold loop_body.
  repeat match type of H with
    | (if ?c then _ else _) = _ => destruct c eqn:?; try discriminate H
    | match ?o with Some _ => _ | None => _ end = _ =>
        destruct o eqn:?; try discriminate H
    end.
  injection H as ->.
  by rewrite (bind_Exit _ _ _ _ _ (lf_args_unresolved _ _ _ _ Hall)).
Qed.

(** X11. A key that no document defines is fatal, not an error text: when
    the loop reaches a plain element, or an adjacency key, whose key is
    defined nowhere (every document having the table), the line naming the
    key is printed, after the warning about underscores if there is one,
    and the program is left with -1; no command is returned. *)
Theorem unresolved_key_exits pre elem post st st1 out out1 :
  for_elements command dict_list source override pre st out = (Ret st1, out1) →
  (classify override elem = Plain →
   Forall (table_without command elem) dict_list →
   for_elements command dict_list source override (pre ++ elem :: post) st out
   = (Exit (-1),
      out1 ++ warnings elem
      ++ ["Error: element '" +:+ elem +:+ "' not found in any TOML files."]))
  ∧ (∀ key,
       classify override elem = AdjacencyKey key →
       Forall (table_without command key) dict_list →
       for_elements command dict_list source override (pre ++ elem :: post) st out
       = (Exit (-1),
          out1 ++ ["Error: element '" +:+ key +:+ "' not found in any TOML files."])).
Proof.
  intros Hpre. split.
  - intros Hkind Hall.
    rewrite for_elements_app, (bind_Ret _ _ _ _ _ Hpre). simpl.
    by rewrite (bind_Exit _ _ _ _ _ (loop_body_plain_unresolved st1 _ out1 Hkind Hall)).
  - intros key Hkind Hall.
    rewrite for_elements_app, (bind_Ret _ _ _ _ _ Hpre). simpl.
    by rewrite (bind_Exit _ _ _ _ _
                  (loop_body_adjacency_unresolved st1 _ _ out1 Hkind Hall)).
Qed.

End Tools.

(** ** The separator of the tools *)

Section Separator.

Variables (command : string) (dict_list : list document) (source : string)
          (override : Override).

(** An element that is no tool marker leaves [first_cmd] as it was. *)
Lemma loop_body_keeps_first st elem out st' out' :
  invocation override source elem = None →
  loop_body command dict_list source override st elem out = (Ret st', out') →
  first_cmd st' = first_cmd st.
Proof.
  unfold invocation, classify, loop_body. intros Hinv.
  destruct (PyStr.str_in "_make" (PyStr.slice 0 5 elem)); [discriminate|].
  destruct (PyStr.str_in "_cmake" (PyStr.slice 0 6 elem)); [discriminate|].
  clear Hinv. unfold bind, ret, raise.
  repeat match goal with
    | |- context [if ?c then _ else _] => destruct c eqn:?
    | |- context [match ?o with Some _ => _ | None => _ end] => destruct o eqn:?
    | |- context [let (_, _) := ?m in _] => destruct m as [[?| |] ?] eqn:?
    | |- context [match ?v with VStr _ => _ | VArr _ => _ end] => destruct v
    end; simpl; try discriminate; by intros [= <- <-].
Qed.

Lemma for_elements_keeps_first elems : ∀ st out st' out',
  Forall (λ e, invocation override source e = None) elems →
  for_elements command dict_list source override elems st out = (Ret st', out') →
  first_cmd st' = first_cmd st.
Proof.
  induction elems as [|e rest IH]; intros st out st' out' Hall H.
  - by injection H as <- <-.
  - apply Forall_cons in Hall as [He Hrest]. simpl in H. unfold bind in H.
    destruct (loop_body command dict_list source override st e out)
      as [[st1| |] out1] eqn:H1; [|discriminate..].
    rewrite (IH _ _ _ _ Hrest H). by eapply loop_body_keeps_first.
Qed.

Lemma for_elements_tool_seen elems : ∀ st out st' out',
  Exists (λ e, is_Some (invocation override source e)) elems →
  for_elements command dict_list source override elems st out = (Ret st', out') →
  first_cmd st' = false.
Proof.
  induction elems as [|e rest IH]; intros st out st' out' Hex H;
    [by apply Exists_nil in Hex|].
  simpl in H. unfold bind in H.
  destruct (loop_body command dict_list source override st e out)
    as [[st1| |] out1] eqn:H1; [|discriminate..].
  apply Exists_cons in Hex as [[text He]|Hrest]; [|by eapply IH].
  rewrite (loop_body_tool _ _ _ _ _ _ _ _ He) in H1. injection H1 as <- <-.
  by destruct (for_elements_grows _ _ _ _ _ _ _ _ _ H) as [_ ->].
Qed.

(** X9. The build tool and the configure tool share one separator rule,
    decided by the tool markers that stand before in the list. Starting
    with [first_cmd] set, as [generateCommand] does, a marker [_make] or
    [_cmake] before which the list holds no such marker is written without
    separator, whatever other elements precede it; a marker that comes
    after another one, of either kind, is preceded by a semicolon. *)
Theorem tools_separated pre tool text st st' out out' :
  invocation override source tool = Some text →
  for_elements command dict_list source override pre st out = (Ret st', out') →
  (first_cmd st = true →
   Forall (λ e, invocation override source e = None) pre →
   for_elements command dict_list source override (pre ++ [tool]) st out
   = (Ret {| commands_to_run := commands_to_run st' +:+ text;
             next_no_space := next_no_space st';
             first_cmd := false |}, out'))
  ∧ (first_cmd st = false
     ∨ Exists (λ e, is_Some (invocation override source e)) pre →
     for_elements command dict_list source override (pre ++ [tool]) st out
     = (Ret {| commands_to_run := commands_to_run st' +:+ ";" +:+ text;
               next_no_space := next_no_space st';
               first_cmd := false |}, out')).
Proof.
  intros Htool Hpre.
  assert (for_elements command dict_list source override (pre ++ [tool]) st out
          = (Ret {| commands_to_run :=
                      (if first_cmd st' then commands_to_run st'
                       else commands_to_run st' +:+ ";") +:+ text;
                    next_no_space := next_no_space st';
                    first_cmd := false |}, out')) as Hrun.
  { rewrite for_elements_app, (bind_Ret _ _ _ _ _ Hpre). simpl.
    by rewrite (bind_Ret _ _ _ _ _ (loop_body_tool _ _ _ _ st' _ _ out' Htool)). }
  split.
  - intros Hfirst Hnone. rewrite Hrun.
    by rewrite (for_elements_keeps_first _ _ _ _ _ Hnone Hpre), Hfirst.
  - intros Hseen. rewrite Hrun.
    assert (first_cmd st' = false) as ->; [|by rewrite append_assoc].
    destruct Hseen as [Hfirst|Hex].
    + by destruct (for_elements_grows _ _ _ _ _ _ _ _ _ Hpre) as [_ ->].
    + by eapply for_elements_tool_seen.
Qed.

End Separator.

Lemma tools_separated_witness :
  for_elements "example" [Sample.test_toml] "../linux/v1/" Override_default
    (["target"] ++ ["_cmake"])
    {| commands_to_run := ""; next_no_space := false; first_cmd := true |} []
  = (Ret {| commands_to_run := " all" +:+ " cmake -S ../linux/v1/";
            next_no_space := false; first_cmd := false |}, [])
  ∧ for_elements "example" [Sample.test_toml] "../linux/v1/" Override_default
      (["_make"; "target"] ++ ["_cmake"])
      {| commands_to_run := ""; next_no_space := false; first_cmd := true |} []
    = (Ret {| commands_to_run :=
                " make -j$(($(nproc) - 1)) -C ../linux/v1/ all"
                +:+ ";" +:+ " cmake -S ../linux/v1/";
              next_no_space := false; first_cmd := false |}, []).
Proof.
  split.
  - refine (proj1 (tools_separated "example" [Sample.test_toml] "../linux/v1/"
                     Override_default ["target"] "_cmake"
                     " cmake -S ../linux/v1/"
                     {| commands_to_run := ""; next_no_space := false;
                        first_cmd := true |}
                     {| commands_to_run := " all"; next_no_space := false;
                        first_cmd := true |} [] [] eq_refl eq_refl) eq_refl _).
    constructor; [reflexivity | constructor].
  - refine (proj2 (tools_separated "example" [Sample.test_toml] "../linux/v1/"
                     Override_default ["_make"; "target"] "_cmake"
                     " cmake -S ../linux/v1/"
                     {| commands_to_run := ""; next_no_space := false;
                        first_cmd := true |}
                     {| commands_to_run :=
                          " make -j$(($(nproc) - 1)) -C ../linux/v1/ all";
                        next_no_space := false; first_cmd := false |}
                     [] [] eq_refl eq_refl) _).
    right. constructor. by eexists.
Defined.

Lemma empty_element_raises_witness :
  for_elements "example" [Sample.test_toml] "../linux/v1/" Override_default
    (["target"] ++ "" :: ["buildDir"]) Sample.started []
  = (Raise IndexError, []).
Proof.
  exact (empty_element_raises "example" [Sample.test_toml] "../linux/v1/"
           Override_default ["target"] ["buildDir"] Sample.started
           {| commands_to_run := " make all"; next_no_space := false;
              first_cmd := false |} [] [] eq_refl).
Defined.

Lemma unresolved_key_exits_witness :
  for_elements "example" [Sample.board_toml] "../linux/v1/" Override_default
    (["optimization"] ++ "tar_get" :: ["optimization"]) Sample.started []
  = (Exit (-1),
     [] ++ warnings "tar_get"
     ++ ["Error: element 'tar_get' not found in any TOML files."]).
Proof.
  destruct (unresolved_key_exits "example" [Sample.board_toml] "../linux/v1/"
              Override_default ["optimization"] "tar_get" ["optimization"]
              Sample.started
              {| commands_to_run := " make -O2"; next_no_space := false;
                 first_cmd := false |} [] [] eq_refl) as [H _].
  apply H; [reflexivity|].
  constructor; [|constructor].
  exists {[ "optimization" := VStr "-O2" ]}. split; reflexivity.
Defined.

(** ** The reserved markers *)

Lemma prefix_length (s1 s2 : string) :
  String.prefix s1 s2 = true → String.length s1 ≤ String.length s2.
Proof.
  revert s2. induction s1 as [|a s1 IH]; intros [|b s2]; simpl; try done; [lia|].
  destruct (ascii_dec a b); [|done]. intros H. apply IH in H. lia.
Qed.

Lemma str_in_short (needle hay : string) :
  String.length hay < String.length needle → PyStr.str_in needle hay = false.
Proof.
  induction hay as [|c hay IH]; intros Hlen; cbn [PyStr.str_in].
  - destruct needle; [simpl in Hlen; lia | done].
  - rewrite IH by (simpl in Hlen; lia). rewrite orb_false_r.
    destruct (String.prefix needle (String c hay)) eqn:Hp; [|done].
    apply prefix_length in Hp. lia.
Qed.

Lemma length_substring n (s : string) : String.length (substring 0 n s) ≤ n.
Proof.
  revert s. induction n as [|n IH]; intros [|c s]; simpl; try lia.
  specialize (IH s). lia.
Qed.

Lemma prefix_substring (needle s : string) :
  String.prefix needle (substring 0 (String.length needle) s)
  = String.prefix needle s.
Proof.
  revert s. induction needle as [|a needle IH]; intros [|b s]; simpl; try done.
  destruct (ascii_dec a b); [apply IH | done].
Qed.

(** [needle in s[0:len(needle)]] is the test that [s] begins with [needle]. *)
Lemma str_in_slice (needle s : string) :
  needle ≠ "" →
  PyStr.str_in needle (PyStr.slice 0 (String.length needle) s)
  = String.prefix needle s.
Proof.
  intros Hne. unfold PyStr.slice. rewrite Nat.sub_0_r.
  rewrite <- (prefix_substring needle s).
  pose proof (length_substring (String.length needle) s) as Hlen.
  destruct (substring 0 (String.length needle) s) as [|c hay];
    cbn [PyStr.str_in]; [apply orb_false_r|].
  rewrite (str_in_short needle hay) by (simpl in Hlen; lia).
  apply orb_false_r.
Qed.

Lemma cmake_not_make (elem : string) :
  String.prefix "_cmake" elem = true → String.prefix "_make" elem = false.
Proof.
  destruct elem as [|a [|b elem]]; cbn [String.prefix]; try done.
  - by destruct (ascii_dec "_" a).
  - destruct (ascii_dec "_" a); [|done].
    destruct (ascii_dec "c" b) as [<-|]; [|done].
    by destruct (ascii_dec "m" "c").
Qed.

Lemma src_not_make (elem : string) :
  String.prefix "_src_" elem = true →
  String.prefix "_make" elem = false ∧ String.prefix "_cmake" elem = false.
Proof.
  destruct elem as [|a [|b elem]]; cbn [String.prefix]; try done.
  - by destruct (ascii_dec "_" a).
  - destruct (ascii_dec "_" a); [|done].
    destruct (ascii_dec "s" b) as [<-|]; [|done].
    by destruct (ascii_dec "m" "s"), (ascii_dec "c" "s").
Qed.

(** X12. The three reserved markers are recognised by their beginning only:
    an element is a build-tool marker exactly when it begins with [_make],
    a configure-tool marker exactly when it begins with [_cmake], and the
    source marker exactly when it begins with [_src_], whatever follows and
    whatever the override is; such an element is never looked up as a key. *)
Theorem marker_is_prefix override elem :
  (classify override elem = BuildTool ↔ String.prefix "_make" elem = true)
  ∧ (classify override elem = ConfigureTool ↔ String.prefix "_cmake" elem = true)
  ∧ (classify override elem = SourceDir ↔ String.prefix "_src_" elem = true).
Proof.
  pose proof (str_in_slice "_make" elem ltac:(done)) as Hmake.
  pose proof (str_in_slice "_cmake" elem ltac:(done)) as Hcmake.
  pose proof (str_in_slice "_src_" elem ltac:(done)) as Hsrc.
  cbn [String.length] in Hmake, Hcmake, Hsrc.
  unfold classify. rewrite Hmake, Hcmake, Hsrc.
  pose proof (cmake_not_make elem) as Hc. pose proof (src_not_make elem) as Hs.
  destruct (String.prefix "_make" elem) eqn:E1;
    destruct (String.prefix "_cmake" elem) eqn:E2;
    destruct (String.prefix "_src_" elem) eqn:E3;
    try discriminate (Hc eq_refl); try (destruct (Hs eq_refl); discriminate);
    (split; [|split]); split; try done;
    repeat match goal with
      | |- context [if ?c then _ else _] => destruct c
      | |- context [match ?o with Some _ => _ | None => _ end] => destruct o
      end; done.
Qed.

(** ** The list of documents that the loading builds *)

Section Chain.

Variable fs : file_system.

Lemma parsing_failed_out {A} name e out :
  @parsing_failed A name e out
  = (Exit (-1), out ++ ["Error during parsing of " +:+ name +:+ " : " +:+ str_of_exn e]).
Proof. reflexivity. Qed.

Lemma linked_snoc (pre : list document) (a d : document) path :
  linked fs (pre ++ [a]) → includes a path → fs !! path = Some (Parsed d) →
  linked fs ((pre ++ [a]) ++ [d]).
Proof.
  intros Hl Hinc Hfs. induction pre as [|x pre IH].
  - simpl. split; [by exists path | done].
  - destruct pre as [|y pre].
    + simpl in *. destruct Hl as [Hx _].
      split; [done|]. split; [by exists path | done].
    + change (linked fs (x :: y :: ((pre ++ [a]) ++ [d]))).
      change (linked fs (x :: y :: (pre ++ [a]))) in Hl.
      cbn [linked] in *. destruct Hl as [Hx Hl]. split; [done|].
      by apply IH.
Qed.

Lemma follow_includes_chain fuel :
  ∀ st m (lst : list document) out out',
    follow_includes fs fuel st = Some m →
    m out = (Ret lst, out') →
    last (lst_toml_files st) = Some (toml_dict st) →
    linked fs (lst_toml_files st) →
    out' = out ∧ lst_toml_files st `prefix_of` lst ∧ linked fs lst
    ∧ ∃ d, last lst = Some d ∧ ends_chain d.
Proof.
  induction fuel as [|fuel IH]; intros st m lst out out' Hrun Hm Hlast Hl;
    [done|].
  simpl in Hrun.
  destruct (toml_dict st !! "header") as [header|] eqn:Hh;
    [|injection Hrun as <-; by rewrite parsing_failed_out in Hm].
  destruct (header !! "include") as [[path|arr]|] eqn:Hi.
  - destruct (fs !! path) as [[msg|msg|d]|] eqn:Hfs;
      try (injection Hrun as <-; by rewrite parsing_failed_out in Hm).
    destruct (last_Some (lst_toml_files st) (toml_dict st)) as [[pre Hpre] _];
      [done|].
    destruct (IH _ _ _ _ _ Hrun Hm) as (-> & Hp & Hlk & Hend).
    + simpl. by rewrite last_snoc.
    + simpl. rewrite Hpre. apply linked_snoc with path; [by rewrite <- Hpre| |done].
      by exists header.
    + split_and!; try done. simpl in Hp.
      by eapply prefix_app_l.
  - injection Hrun as <-. by rewrite parsing_failed_out in Hm.
  - injection Hrun as <-. unfold ret in Hm. injection Hm as <- <-.
    split_and!; try done. exists (toml_dict st). split; [done|]. by exists header.
Qed.

(** X13. When the loading hands a list of documents to the rest of [main],
    it has printed nothing; the list begins with the document of the input
    file, whose header declares a name and which has no table [all]; each
    document is followed by the document of the file its header includes;
    and the header of the last one includes nothing. *)
Theorem load_documents_chain fuel inputFile out (lst : list document) out' :
  load_documents fs fuel inputFile out = Some (Ret lst, out') →
  out' = out
  ∧ (∃ d rest, lst = d :: rest ∧ fs !! inputFile = Some (Parsed d)
               ∧ declares_name d ∧ d !! "all" = None)
  ∧ linked fs lst
  ∧ ∃ d, last lst = Some d ∧ ends_chain d.
Proof.
  unfold load_documents, bind at 1. intros H.
  destruct (load_input fs inputFile out) as [[d| |] out1] eqn:Hload;
    [|done|done].
  apply load_input_Ret in Hload as [Hfs ->].
  assert (declares_name d ∧ d !! "all" = None
          ∧ (check_input d ;, ret d) out = (Ret d, out)) as (Hname & Hall & Hc).
  { unfold check_input, bind, print, exit, ret in *.
    destruct (d !! "header") as [header|] eqn:Hh; [|done].
    destruct (header !! "name") as [nm|] eqn:Hn; [|done].
    destruct (d !! "all"); [done|].
    split; [|done]. exists header. by split. }
  rewrite Hc in H.
  destruct (follow_includes fs fuel _) as [m|] eqn:Hrun; [|done].
  simpl in H. injection H as H.
  destruct (follow_includes_chain _ _ _ _ _ _ Hrun H) as (-> & Hp & Hl & Hend);
    [done|done|].
  split_and!; try done.
  destruct Hp as [more ->]. by exists d, more.
Qed.

End Chain.

Lemma load_documents_chain_witness :
  ([] : list string) = []
  ∧ (∃ d rest, [Sample.custom_toml; Sample.layer_toml; Sample.test_toml] = d :: rest
               ∧ Sample.layers !! "custom.toml" = Some (Parsed d)
               ∧ declares_name d ∧ d !! "all" = None)
  ∧ linked Sample.layers [Sample.custom_toml; Sample.layer_toml; Sample.test_toml]
  ∧ ∃ d, last [Sample.custom_toml; Sample.layer_toml; Sample.test_toml] = Some d
         ∧ ends_chain d.
Proof.
  exact (load_documents_chain Sample.layers 3 "custom.toml" []
           [Sample.custom_toml; Sample.layer_toml; Sample.test_toml] []
           eq_refl).
Defined.

(** ** main, after the loading *)





Lemma unsupported_out cmd (lst : list document) filename out r out' :
  unsupported cmd lst filename out = (Ret r, out') → out' = out.
Proof.
  revert filename. induction lst as [|d rest IH]; intros filename H.
  - simpl in H. unfold ret in H. congruence.
  - simpl in H. destruct (d !! cmd); [by eapply IH|].
    unfold bind, subscript in H.
    destruct (d !! "header") as [hd|]; [|discriminate].
    simpl in H. destruct (hd !! "name") as [nm|]; [|discriminate].
    simpl in H. by eapply IH.
Qed.

Lemma text_is_error command (dict_list : list document) out msg out' :
  checkCommand command dict_list out = (Ret (Text msg), out') →
  PyStr.slice 0 5 msg = "Error".
Proof.
  intros H. apply checkCommand_text_inv in H
    as (_ & pre & d & t & status & name & post & _ & _ & _ & _ & _ & ->).
  reflexivity.
Qed.

Section MainLemmas.

Variable isdir : string → bool.



End MainLemmas.


(** X16. The branch of [main] that builds one command is taken only for a
    command other than [all], and in that branch a command is handed to
    [exec] only when every document of the list has a table for the command
    and none of these tables carries a status; the command is then the one
    [generateCommand] builds from the text of [--override], it does not
    begin with [Error], and the last two lines printed are an empty line
    and the command. *)
Theorem run_command_Ret cmd (lst : list document) source run_flash override
    out command out' :
  (λ m : M string, m out) <$> run_command cmd lst source run_flash override
  = Some (Ret command, out') →
  cmd ≠ "all"
  ∧ Forall (table_without cmd "status") lst
  ∧ PyStr.slice 0 5 command ≠ "Error"
  ∧ ∃ mid,
      generateCommand cmd lst source run_flash
        (Override_init (default "" override)) out
      = (Ret command, mid)
      ∧ out' = mid ++ [""; command].
Proof.
  unfold run_command. intros H.
  destruct (String.eqb cmd "all") eqn:Hcmd; [discriminate|].
  apply String.eqb_neq in Hcmd. split; [done|].
  simpl in H. injection H as H. unfold bind at 1 in H.
  destruct (unsupported cmd lst None out) as [[r| |] o2] eqn:Hun;
    [|done|done].
  apply unsupported_out in Hun as Ho. subst o2.
  destruct r as [nm|].
  { unfold bind, as_str, print, exit, ret, raise in H. by destruct nm. }
  unfold bind at 1 in H.
  destruct (checkCommand cmd lst out) as [[r| |] o3] eqn:Hck; [|done|done].
  destruct r as [|msg].
  - apply checkCommand_zero_inv in Hck as Hall.
    rewrite checkCommand_zero in Hck by done. injection Hck as <-.
    assert ((match override with
             | Some o => if String.eqb o "" then "" else o
             | None => ""
             end) = default "" override) as Hov.
    { destruct override as [o|]; [|done]. simpl.
      destruct (String.eqb o "") eqn:Ho; [|done].
      by apply String.eqb_eq in Ho. }
    rewrite Hov in H. unfold bind at 1 in H.
    destruct (generateCommand _ _ _ _ _ out) as [[text| |] mid] eqn:Hgen;
      [|done|done].
    unfold bind, print, exit, ret in H.
    destruct (String.eqb (PyStr.slice 0 5 text) "Error") eqn:Herr; [done|].
    injection H as <- <-. apply String.eqb_neq in Herr.
    split_and!; try done. exists mid. split; [done|].
    by rewrite <- app_assoc.
  - apply text_is_error in Hck as Herr.
    unfold bind, print, exit, ret in H. rewrite Herr in H. done.
Qed.




Lemma run_command_Ret_witness :
  "example" ≠ "all"
  ∧ Forall (table_without "example" "status") [Sample.test_toml]
  ∧ PyStr.slice 0 5
      " make -j$(($(nproc) - 1)) -C ../linux/v1/  boot BUILD_PLAT=../build "
    ≠ "Error".
Proof.
  destruct (run_command_Ret "example" [Sample.test_toml] "../linux/v1/" false
              (Some "target:boot") []
              " make -j$(($(nproc) - 1)) -C ../linux/v1/  boot BUILD_PLAT=../build "
              [""; " make -j$(($(nproc) - 1)) -C ../linux/v1/  boot BUILD_PLAT=../build "]
              eq_refl) as (Hcmd & Hall & Herr & _).
  exact (conj Hcmd (conj Hall Herr)).
Defined.

(** ** getSource: the directory chosen from the menu *)

Lemma print_all_out (lines out : list string) :
  print_all lines out = (Ret tt, out ++ lines).
Proof.
  revert out. induction lines as [|line rest IH]; intros out.
  - unfold print_all, ret. by rewrite app_nil_r.
  - cbn [print_all]. unfold bind, print. rewrite IH.
    by rewrite <- app_assoc.
Qed.

Lemma chosen_spec (z : Z) (count : nat) :
  chosen z count
  = if ((1 <=? z) && (z <=? Z.of_nat count))%Z then z else 0%Z.
Proof.
  unfold chosen. induction count as [|count IH].
  - cbn [seq foldl]. change (Z.of_nat 0) with 0%Z.
    destruct (Z.leb_spec 1 z), (Z.leb_spec z 0); simpl; try done; lia.
  - rewrite seq_S, foldl_app, IH. cbn [foldl].
    destruct (Z.eqb_spec z (Z.of_nat (1 + count))) as [->|Hne].
    + destruct (Z.leb_spec 1 (Z.of_nat (1 + count))),
        (Z.leb_spec (Z.of_nat (1 + count)) (Z.of_nat (S count)));
        simpl; try done; lia.
    + destruct (Z.leb_spec 1 z), (Z.leb_spec z (Z.of_nat count)),
        (Z.leb_spec z (Z.of_nat (S count))); simpl; try done; lia.
Qed.

Lemma list_item_last {A} (l : list A) : list_item l (0 - 1) = last l.
Proof.
  unfold list_item. rewrite last_lookup.
  change (0 <=? 0 - 1)%Z with false. cbv iota.
  destruct l as [|a l]; [done|].
  destruct (Z.leb_spec (- Z.of_nat (length (a :: l))) (0 - 1)) as [_|Hlt].
  - f_equal. rewrite length_cons. lia.
  - rewrite length_cons in Hlt. lia.
Qed.

Section GetSourceLemmas.

Variables (unbound_n : string) (directories : list string) (cmd : string).

Lemma getSource_choice z out :
  directories ≠ [] →
  getSource unbound_n directories cmd (Typed (IsInt z)) out
  = match list_item directories (chosen z (length directories) - 1) with
    | Some dir => (Ret ("../" +:+ cmd +:+ "/" +:+ dir +:+ "/"),
                   out ++ menu_lines directories)
    | None => (Raise IndexError, out ++ menu_lines directories)
    end.
Proof.
  intros Hne. unfold getSource, bind at 1. rewrite print_all_out.
  destruct directories as [|d0 rest] eqn:Hd; [done|]. rewrite <- Hd.
  unfold bind, ret.
  assert ((chosen z (length directories) <? 0)%Z
          || (Z.of_nat (length directories) <? chosen z (length directories))%Z
          = false) as ->.
  { rewrite chosen_spec. apply orb_false_iff.
    destruct ((1 <=? z)%Z && (z <=? Z.of_nat (length directories))%Z) eqn:Hin.
    - apply andb_true_iff in Hin as [H1%Z.leb_le H2%Z.leb_le].
      split; apply Z.ltb_ge; lia.
    - split; apply Z.ltb_ge; lia. }
  by destruct (list_item directories _).
Qed.

(** X17. Answering the menu with the number of a line picks the directory
    of that line: the result is the path of that directory under the
    command's directory, with a final slash, and only the menu is
    printed. *)
Theorem getSource_in_range z dir out :
  (1 ≤ z ≤ Z.of_nat (length directories))%Z →
  directories !! Z.to_nat (z - 1) = Some dir →
  getSource unbound_n directories cmd (Typed (IsInt z)) out
  = (Ret ("../" +:+ cmd +:+ "/" +:+ dir +:+ "/"), out ++ menu_lines directories).
Proof.
  intros Hz Hdir. rewrite getSource_choice.
  - rewrite chosen_spec.
    destruct (Z.leb_spec 1 z), (Z.leb_spec z (Z.of_nat (length directories)));
      try lia. simpl. unfold list_item.
    destruct (Z.leb_spec 0 (z - 1)); [|lia]. by rewrite Hdir.
  - intros ->. simpl in Hz. lia.
Qed.

(** X18. An integer that is the number of no line of the menu is not
    refused: the last directory of the menu is taken, and the line
    [Error: choice out of range] is not printed. *)
Theorem getSource_out_of_range z dir out :
  last directories = Some dir →
  ¬ (1 ≤ z ≤ Z.of_nat (length directories))%Z →
  getSource unbound_n directories cmd (Typed (IsInt z)) out
  = (Ret ("../" +:+ cmd +:+ "/" +:+ dir +:+ "/"), out ++ menu_lines directories).
Proof.
  intros Hlast Hz. rewrite getSource_choice.
  - rewrite chosen_spec.
    destruct (Z.leb_spec 1 z), (Z.leb_spec z (Z.of_nat (length directories)));
      try lia; simpl; by rewrite list_item_last, Hlast.
  - by intros ->.
Qed.


End GetSourceLemmas.

Lemma getSource_in_range_witness :
  getSource "n" ["v1"; "v2"; "v3"] "linux" (Typed (IsInt 2)) []
  = (Ret ("../" +:+ "linux" +:+ "/" +:+ "v2" +:+ "/"),
     [] ++ menu_lines ["v1"; "v2"; "v3"]).
Proof.
  refine (getSource_in_range "n" ["v1"; "v2"; "v3"] "linux" 2 "v2" [] _ _).
  - simpl. lia.
  - reflexivity.
Defined.

Lemma getSource_out_of_range_witness :
  getSource "n" ["v1"; "v2"; "v3"] "linux" (Typed (IsInt 7)) []
  = (Ret ("../" +:+ "linux" +:+ "/" +:+ "v3" +:+ "/"),
     [] ++ menu_lines ["v1"; "v2"; "v3"]).
Proof.
  refine (getSource_out_of_range "n" ["v1"; "v2"; "v3"] "linux" 7 "v3" [] _ _).
  - reflexivity.
  - simpl. lia.
Defined.

(** ** How the loading ends *)

Section Outcomes.

Variable fs : file_system.

Lemma follow_includes_ends fuel :
  ∀ st m, follow_includes fs fuel st = Some m →
    (∃ lst : list document, m = ret lst)
    ∨ (∃ name e, m = parsing_failed name e).
Proof.
  induction fuel as [|fuel IH]; intros st m H; [done|].
  simpl in H.
  destruct (toml_dict st !! "header") as [header|];
    [|injection H as <-; right; by eexists _, _].
  destruct (header !! "include") as [[path|arr]|].
  - destruct (fs !! path) as [[msg|msg|d]|];
      try (injection H as <-; right; by eexists _, _).
    by eapply IH.
  - injection H as <-. right. by eexists _, _.
  - injection H as <-. left. by eexists.
Qed.

(** X20. The loading ends in one of three ways only. It hands over a list
    of documents, having printed nothing. Or it exits, always with status
    -1 and after exactly one printed line. Or an exception escapes, and
    then nothing was printed and the input file itself is not a file that
    could be read and parsed: a failure on an included file never escapes
    as an exception. *)
Theorem load_documents_outcomes fuel inputFile out r out' :
  load_documents fs fuel inputFile out = Some (r, out') →
  match r with
  | Ret _ => out' = out
  | Exit code => code = (-1)%Z ∧ ∃ line, out' = out ++ [line]
  | Raise _ => out' = out ∧ ∀ d, fs !! inputFile ≠ Some (Parsed d)
  end.
Proof.
  unfold load_documents, bind at 1, load_input. intros H.
  destruct (fs !! inputFile) as [[msg|msg|d]|] eqn:Hfs;
    try (unfold raise in H; injection H as <- <-; by split).
  unfold ret at 1 in H.
  unfold check_input, bind, print, exit, ret in H.
  destruct (d !! "header") as [header|];
    [|injection H as <- <-; split; [done | by eexists]].
  destruct (header !! "name") as [nm|];
    [|injection H as <- <-; split; [done | by eexists]].
  destruct (d !! "all");
    [injection H as <- <-; split; [done | by eexists]|].
  destruct (follow_includes fs fuel _) as [m|] eqn:Hrun; [|done].
  simpl in H. injection H as H.
  destruct (follow_includes_ends _ _ _ Hrun) as [[lst ->]|(name & e & ->)].
  - unfold ret in H. by injection H as <- <-.
  - rewrite parsing_failed_out in H. injection H as <- <-.
    split; [done | by eexists].
Qed.

End Outcomes.

Lemma load_documents_outcomes_witness :
  (-1 = -1)%Z
  ∧ ∃ line,
      [] ++ ["Error during parsing of root.toml : "
             +:+ no_such_file "base.toml"]
      = [] ++ [line].
Proof.
  exact (load_documents_outcomes {[ "root.toml" := Parsed Sample.root_toml ]}
           1 "root.toml" [] (Exit (-1))
           ([] ++ ["Error during parsing of root.toml : "
                   +:+ no_such_file "base.toml"])
           eq_refl).
Defined.

(** ** The command list that is used *)

Lemma find_run_first run command (pre : list document) (d : document)
    (t : table) v post out :
  Forall (table_without command run) pre →
  d !! command = Some t → t !! run = Some v →
  find_run run command (pre ++ d :: post) out = (Ret (Some v), out).
Proof.
  intros Hpre Ht Hv. induction Hpre as [|x pre (tx & Htx & Hk) _ IH].
  - simpl. step_lookup. by rewrite Hv.
  - simpl. step_lookup. by rewrite Hk.
Qed.

(** X21. The list of elements that [generateCommand] walks through is the
    one of the first document whose table for the command has the field of
    the mode ([flashCommand] with [--flash], [exeCommand] without): the
    field of the other mode, and the same field in later documents, are
    not read. *)
Theorem run_list_of_first command (pre : list document) (d : document)
    (t : table) v post source run_flash override out :
  Forall (table_without command "status") (pre ++ d :: post) →
  Forall (table_without command (run_key run_flash)) pre →
  d !! command = Some t → t !! run_key run_flash = Some v →
  generateCommand command (pre ++ d :: post) source run_flash override out
  = (st <~ for_elements command (pre ++ d :: post) source override
             (elements_of v)
             {| commands_to_run := ""; next_no_space := false;
                first_cmd := true |} ;
     ret (commands_to_run st +:+ " ")) out.
Proof.
  intros Hstatus Hpre Ht Hv. unfold generateCommand, bind at 1.
  rewrite checkCommand_zero by done. unfold bind at 1.
  change (if run_flash then "flashCommand" else "exeCommand")
    with (run_key run_flash).
  by rewrite (find_run_first _ _ _ _ t v).
Qed.

Lemma run_list_of_first_witness :
  generateCommand "example" ([Sample.custom_toml] ++ Sample.test_toml :: [])
    "../linux/v1/" false Override_default []
  = (st <~ for_elements "example" ([Sample.custom_toml] ++ Sample.test_toml :: [])
             "../linux/v1/" Override_default
             (elements_of
                (VArr ["_make"; "optimization"; "target"; "BUILD_PLAT="; "buildDir"]))
             {| commands_to_run := ""; next_no_space := false;
                first_cmd := true |} ;
     ret (commands_to_run st +:+ " ")) [].
Proof.
  refine (run_list_of_first "example" [Sample.custom_toml] Sample.test_toml
            Sample.example
            (VArr ["_make"; "optimization"; "target"; "BUILD_PLAT="; "buildDir"])
            [] "../linux/v1/" false Override_default [] _ _ eq_refl eq_refl).
  - constructor; [|constructor; [|constructor]].
    + exists {[ "target" := VStr "boot" ]}. split; reflexivity.
    + exists Sample.example. split; reflexivity.
  - constructor; [|constructor].
    exists {[ "target" := VStr "boot" ]}. split; reflexivity.
Defined.

(** ** Values that are not strings *)

Section Arrays.

Variables (command : string) (dict_list : list document) (source : string)
          (override : Override).

Lemma loop_body_array st elem key arr out :
  classify override elem = Plain ∧ key = elem
  ∨ classify override elem = AdjacencyKey key →
  (∀ o, lf_args key command dict_list o = (Ret (VArr arr), o)) →
  ∃ lines,
    loop_body command dict_list source override st elem out
    = (Raise TypeError, out ++ lines).
Proof.
  intros H Hres. unfold classify in H. unfold loop_body.
  destruct H as [[H ->]|H];
    repeat match type of H with
      | (if ?c then _ else _) = _ => destruct c eqn:?; try discriminate H
      | match ?o with Some _ => _ | None => _ end = _ =>
          destruct o eqn:?; try discriminate H
      end.
  - exists (warnings elem). unfold warnings, bind at 1.
    destruct (PyStr.str_in "_" elem); simpl.
    + by rewrite (bind_Ret _ _ _ _ _ (Hres _)).
    + by rewrite (bind_Ret _ _ _ _ _ (Hres _)), app_nil_r.
  - injection H as ->. exists []. rewrite app_nil_r.
    by rewrite (bind_Ret _ _ _ _ _ (Hres _)).
Qed.

(** X22. A key whose value is an array, not a string, is not reported as
    an error text: when the loop reaches a plain element or an adjacency
    key that resolves to an array, a TypeError escapes from
    [generateCommand], and no command is returned. *)
Theorem array_value_raises pre elem key arr post st st1 out out1 :
  for_elements command dict_list source override pre st out = (Ret st1, out1) →
  classify override elem = Plain ∧ key = elem
  ∨ classify override elem = AdjacencyKey key →
  (∀ o, lf_args key command dict_list o = (Ret (VArr arr), o)) →
  ∃ lines,
    for_elements command dict_list source override (pre ++ elem :: post) st out
    = (Raise TypeError, out1 ++ lines).
Proof.
  intros Hpre Hkind Hres.
  destruct (loop_body_array st1 elem key arr out1 Hkind Hres) as [lines Hbody].
  exists lines. rewrite for_elements_app, (bind_Ret _ _ _ _ _ Hpre). simpl.
  by rewrite (bind_Raise _ _ _ _ _ Hbody).
Qed.

End Arrays.

Lemma array_value_raises_witness :
  ∃ lines,
    for_elements "example"
      [{[ "example" := {[ "target" := VArr ["all"; "boot"] ]} ]}]
      "../linux/v1/" Override_default ([] ++ "target" :: []) Sample.started []
    = (Raise TypeError, [] ++ lines).
Proof.
  refine (array_value_raises "example"
            [{[ "example" := {[ "target" := VArr ["all"; "boot"] ]} ]}]
            "../linux/v1/" Override_default [] "target" "target"
            ["all"; "boot"] [] Sample.started Sample.started [] []
            eq_refl _ _).
  - left. split; reflexivity.
  - intros o. reflexivity.
Defined.
